(** * OpenWeatherMap QA automation: page object, API client and settings

    A shallow embedding of the repository's own glue code:

    - [src/config/settings.py]   the [Settings] record and the [get_settings]
      process-wide singleton;
    - [src/pages/base_page.py]   [BasePage.get_text] and the navigation helpers;
    - [src/pages/weather_page.py] the multi-selector fallback loops of
      [WeatherPage];
    - [src/api/weather_api.py]   the five request wrappers and the two
      response-shape validators;
    - [tests/api/test_weather_api_working.py] the "skip when no API key"
      prelude shared by its tests.

    Python values are a small inductive universe, exceptions are an explicit
    [Raise] result, the browser page and the HTTP context are records of
    oracles, and every call a page method makes is recorded in a trace so that
    "which candidates were evaluated" is a statement about that trace.
    Calls to [self.logger] do not influence any returned value and are not
    part of the embedding. *)

From Stdlib Require Import List String Ascii ZArith Bool Lia PrimFloat.
Import ListNotations.
Local Open Scope string_scope.
Local Open Scope list_scope.
Set Warnings "-register-all".

(* ------------------------------------------------------------------------- *)
(** ** Python values, exceptions and dictionaries *)

Module Py.

(** A raised exception, identified by its rendered message. *)
Definition exn := string.

(** The result of evaluating an expression that may raise. *)
Inductive outcome (A : Type) : Type :=
| Ok (a : A)
| Raise (e : exn).
Arguments Ok {A} a.
Arguments Raise {A} e.

Definition is_ok {A} (r : outcome A) : bool :=
  match r with Ok _ => true | Raise _ => false end.

(** The values that flow through the wrappers: JSON documents, raw text,
    numbers and [None].  A dictionary keeps its insertion order, as Python
    dictionaries do (the order of [params] is the order of the query
    string). *)
Inductive value : Type :=
| PNone
| PBool (b : bool)
| PInt (n : Z)
| PFloat (x : float)
| PStr (s : string)
| PList (xs : list value)
| PDict (kvs : list (string * value)).

Definition dict := list (string * value).

(** [isinstance(v, dict)]. *)
Definition isinstance_dict (v : value) : bool :=
  match v with PDict _ => true | _ => false end.

Definition keys (d : dict) : list string := map fst d.

(** [k in d] for a dictionary. *)
Definition has_key (k : string) (d : dict) : bool :=
  existsb (String.eqb k) (keys d).

(** [d.get(k)]: [None] when the key is missing. *)
Fixpoint get (k : string) (d : dict) : option value :=
  match d with
  | [] => None
  | (k', v) :: rest => if String.eqb k k' then Some v else get k rest
  end.

(** [d.get(k, default)]. *)
Definition get_default (k : string) (default : value) (d : dict) : value :=
  match get k d with Some v => v | None => default end.

(** [d[k] = v]: an existing key keeps its position, a new key goes last. *)
Fixpoint set (k : string) (v : value) (d : dict) : dict :=
  match d with
  | [] => [(k, v)]
  | (k', v') :: rest =>
      if String.eqb k k' then (k', v) :: rest else (k', v') :: set k v rest
  end.

(** [{**d, **extra}]: the entries of [extra] are stored into [d] in order. *)
Definition update (d extra : dict) : dict :=
  fold_left (fun acc kv => set (fst kv) (snd kv) acc) extra d.

(** [needle in haystack] for two strings. *)
Definition is_substring (needle haystack : string) : bool :=
  match String.index 0 needle haystack with
  | Some _ => true
  | None => false
  end.

(** The operator [field in container] for a string [field]; a value that is
    neither a container nor iterable raises [TypeError]. *)
Definition contains (field : string) (container : value) : outcome bool :=
  match container with
  | PDict kvs => Ok (has_key field kvs)
  | PList xs =>
      Ok (existsb (fun x => match x with
                            | PStr s => String.eqb field s
                            | _ => false
                            end) xs)
  | PStr s => Ok (is_substring field s)
  | PNone | PBool _ | PInt _ | PFloat _ =>
      Raise "TypeError: argument is not iterable"
  end.

(** [all(p(x) for x in xs)]: stops at the first [False]; an exception raised
    by [p] propagates. *)
Fixpoint all {A} (p : A -> outcome bool) (xs : list A) : outcome bool :=
  match xs with
  | [] => Ok true
  | x :: rest =>
      match p x with
      | Ok true => all p rest
      | Ok false => Ok false
      | Raise e => Raise e
      end
  end.

(** Truth value of a string: only the empty string is falsy. *)
Definition truthy_str (s : string) : bool :=
  match s with EmptyString => false | _ => true end.

(** [a or b] on an optional string: [a] when it is truthy, else [b]. *)
Definition or_ (a b : option string) : option string :=
  match a with
  | Some s => if truthy_str s then a else b
  | None => b
  end.

End Py.
Import Py.

(* ------------------------------------------------------------------------- *)
(** ** src/config/settings.py *)

Module Config.

Record Settings : Type := mkSettings {
  environment : string;
  debug : bool;
  openweather_api_key : string;
  openweather_base_url : string;
  browser_name : string;
  headless : bool;
  browser_timeout : Z;
  test_timeout : Z;
  retry_count : Z;
  ui_base_url : string;
  screenshot_mode : string;
  video_mode : string;
  allure_results_dir : string;
  html_report_dir : string;
  performance_threshold_ms : Z
}.

(** What the process environment and the [.env] file provide.  An entry
    whose value validates at its field's type appears under that field; the
    names of the fields whose value does not validate (a [DEBUG] that is no
    boolean, a [BROWSER_TIMEOUT] that is no integer) are in [env_unparsable];
    the names of the [.env] entries that are no field of [Settings] are in
    [env_dotenv_extra]. *)
Record Environ : Type := mkEnviron {
  env_environment : option string;
  env_debug : option bool;
  env_openweather_api_key : option string;
  env_openweather_base_url : option string;
  env_browser_name : option string;
  env_headless : option bool;
  env_browser_timeout : option Z;
  env_test_timeout : option Z;
  env_retry_count : option Z;
  env_ui_base_url : option string;
  env_screenshot_mode : option string;
  env_video_mode : option string;
  env_allure_results_dir : option string;
  env_html_report_dir : option string;
  env_performance_threshold_ms : option Z;
  env_unparsable : list string;
  env_dotenv_extra : list string
}.

(** [Field(default=d)]. *)
Definition field_default {A} (provided : option A) (d : A) : A :=
  match provided with Some a => a | None => d end.

(** The object [Settings()] builds once the required key is known: every
    other field takes the provided value or its declared default. *)
Definition populate (env : Environ) (key : string) : Settings :=
  {| environment := field_default (env_environment env) "test";
     debug := field_default (env_debug env) false;
     openweather_api_key := key;
     openweather_base_url :=
       field_default (env_openweather_base_url env)
                     "https://api.openweathermap.org/data/2.5";
     browser_name := field_default (env_browser_name env) "chromium";
     headless := field_default (env_headless env) true;
     browser_timeout := field_default (env_browser_timeout env) 30000%Z;
     test_timeout := field_default (env_test_timeout env) 30%Z;
     retry_count := field_default (env_retry_count env) 2%Z;
     ui_base_url :=
       field_default (env_ui_base_url env) "https://openweathermap.org";
     screenshot_mode :=
       field_default (env_screenshot_mode env) "only-on-failure";
     video_mode := field_default (env_video_mode env) "retain-on-failure";
     allure_results_dir :=
       field_default (env_allure_results_dir env) "reports/allure-results";
     html_report_dir := field_default (env_html_report_dir env) "reports/html";
     performance_threshold_ms :=
       field_default (env_performance_threshold_ms env) 2000%Z |}.

(** The errors validation reports besides a missing key: one per value that
    does not validate and one per foreign [.env] entry. *)
Definition other_errors (env : Environ) : list string :=
  (map (fun name => name ++ ": Input should be a valid value")%string
       (env_unparsable env)
   ++ map (fun name => name ++ ": Extra inputs are not permitted")%string
          (env_dotenv_extra env))%list.

(** [Settings()]: [openweather_api_key] is declared [Field(...)], that is
    required, so a missing entry is a validation error, as is every value
    that does not validate and every foreign [.env] entry. *)
Definition Settings_new (env : Environ) : outcome Settings :=
  match env_openweather_api_key env, other_errors env with
  | Some key, [] => Ok (populate env key)
  | Some _, errors =>
      Raise ("ValidationError: " ++ String.concat "; " errors)%string
  | None, errors =>
      Raise ("ValidationError: "
             ++ String.concat "; " ("openweather_api_key: Field required" :: errors))%string
  end.

(** A reference to a [Settings] object: its position in the heap of objects
    constructed so far.  Two references are the same object exactly when they
    are equal. *)
Definition ref := nat.

(** The part of the process state the module touches: the heap of
    [Settings] objects that have been constructed and the module-level
    variable [_settings]. *)
Record Process : Type := mkProcess {
  heap : list Settings;
  _settings : option ref
}.

(** State of a freshly imported module: [_settings = None]. *)
Definition fresh : Process := {| heap := []; _settings := None |}.

Definition deref (p : Process) (r : ref) : option Settings := nth_error (heap p) r.

(** [get_settings()]. *)
Definition get_settings (env : Environ) (p : Process) : outcome ref * Process :=
  match _settings p with
  | None =>
      match Settings_new env with
      | Ok s =>
          let r := List.length (heap p) in
          (Ok r, {| heap := (heap p ++ [s])%list; _settings := Some r |})
      | Raise e => (Raise e, p)
      end
  | Some r => (Ok r, p)
  end.

(** A sequence of calls, each under the environment current at that call;
    returns every call's result and the final state. *)
Fixpoint get_settings_calls (envs : list Environ) (p : Process)
  : list (outcome ref) * Process :=
  match envs with
  | [] => ([], p)
  | env :: rest =>
      let (r, p1) := get_settings env p in
      let (rs, p2) := get_settings_calls rest p1 in
      (r :: rs, p2)
  end.

End Config.

(* ------------------------------------------------------------------------- *)
(** ** The browser page as seen by the page objects *)

Module Browser.

(** A locator is a lazy description of an element: the selector it was built
    from, possibly narrowed to the first match. *)
Inductive Locator : Type :=
| Loc (selector : string)
| First (l : Locator).

(** The calls a page object makes on the page and on its locators. *)
Inductive Event : Type :=
| CallLocator (selector : string)
| CallIsVisible (element : Locator) (timeout : Z)
| CallTextContent (element : Locator)
| CallFill (element : Locator) (text : string)
| CallPress (element : Locator) (key : string)
| CallGoto (url : string)
| CallWaitForLoadState (state : string).

(** The page during one method call: what each library call answers.  Any of
    them may raise (timeout, malformed selector, closed page). *)
Record Page : Type := mkPage {
  locator : string -> outcome Locator;
  is_visible : Locator -> Z -> outcome bool;
  text_content : Locator -> outcome (option string);
  fill : Locator -> string -> outcome unit;
  press : Locator -> string -> outcome unit;
  goto : string -> outcome unit;
  wait_for_load_state : string -> outcome unit
}.

(** A computation that may raise and that records the calls it made, in the
    order it made them, up to and including the one that raised. *)
Definition M (A : Type) : Type := (outcome A * list Event)%type.

Definition ret {A} (a : A) : M A := (Ok a, []).

Definition bind {A B} (m : M A) (k : A -> M B) : M B :=
  match m with
  | (Ok a, t1) => let (r, t2) := k a in (r, (t1 ++ t2)%list)
  | (Raise e, t1) => (Raise e, t1)
  end.

(** One library call with its answer. *)
Definition call {A} (ev : Event) (answer : outcome A) : M A := (answer, [ev]).

(** [try: m / except: ...] seen from outside: the exception, if any, becomes
    an ordinary value; the calls made before it stay in the trace. *)
Definition catch {A} (m : M A) : M (outcome A) := (Ok (fst m), snd m).

Definition result {A} (m : M A) : outcome A := fst m.
Definition trace {A} (m : M A) : list Event := snd m.

End Browser.
Import Browser.

Declare Scope page_scope.
Delimit Scope page_scope with page.
Notation "x <- m ;; k" := (bind m (fun x => k))
  (at level 61, m at next level, right associativity) : page_scope.
Notation "m ;;; k" := (bind m (fun _ => k))
  (at level 61, right associativity) : page_scope.
Local Open Scope page_scope.

(* ------------------------------------------------------------------------- *)
(** ** src/pages/base_page.py *)

Module BasePage.

(** [self]: the page and the settings obtained in [__init__]. *)
Record t : Type := mk {
  page : Page;
  settings : Config.Settings
}.

(** [navigate_to]. *)
Definition navigate_to (self : t) (url : string) : M unit :=
  call (CallGoto url) (goto (page self) url).

(** [wait_for_page_load]. *)
Definition wait_for_page_load (self : t) : M unit :=
  call (CallWaitForLoadState "networkidle")
       (wait_for_load_state (page self) "networkidle").

(** [self.page.locator(locator) if isinstance(locator, str) else locator]. *)
Definition element_of (self : t) (locator : string + Locator) : M Locator :=
  match locator with
  | inl selector => call (CallLocator selector) (Browser.locator (page self) selector)
  | inr element => ret element
  end.

(** [get_text]: [await element.text_content() or ""]. *)
Definition get_text (self : t) (locator : string + Locator) : M (option string) :=
  element <- element_of self locator ;;
  content <- call (CallTextContent element) (text_content (page self) element) ;;
  ret (or_ content (Some "")).

End BasePage.

(* ------------------------------------------------------------------------- *)
(** ** src/pages/weather_page.py *)

Module WeatherPage.

Import BasePage.

Definition SEARCH_INPUT : string :=
  "[data-testid='search-input'], input[placeholder*='city'], #search_str".
Definition SEARCH_BUTTON : string :=
  "[data-testid='search-button'], button[type='submit'], .search-btn".
Definition WEATHER_INFO : string :=
  "[data-testid='weather-info'], .weather-widget, .current-weather".
Definition TEMPERATURE : string :=
  "[data-testid='temperature'], .temperature, .heading".
Definition CITY_NAME : string :=
  "[data-testid='city-name'], .city-name, h2".
Definition WEATHER_DESCRIPTION : string :=
  "[data-testid='description'], .weather-description".
Definition ERROR_MESSAGE : string :=
  "[data-testid='error'], .error, .alert".

(** [self.page.locator(selector).first]. *)
Definition locator_first (self : t) (selector : string) : M Locator :=
  l <- call (CallLocator selector) (locator (page self) selector) ;;
  ret (First l).

(** [await element.is_visible(timeout=...)]. *)
Definition visible (self : t) (element : Locator) (timeout : Z) : M bool :=
  call (CallIsVisible element timeout) (is_visible (page self) element timeout).

(** The loop of [search_for_city].  [search_input] is the local variable: it
    is assigned before the visibility check, and neither the fall-through of
    the [if] nor the [except: continue] resets it. *)
Fixpoint search_input_loop (self : t) (selectors : list string)
    (search_input : option Locator) : M (option Locator) :=
  match selectors with
  | [] => ret search_input
  | selector :: rest =>
      located <- catch (locator_first self selector) ;;
      match located with
      | Raise _ => search_input_loop self rest search_input
      | Ok element =>
          shown <- catch (visible self element 5000) ;;
          match shown with
          | Ok true => ret (Some element)
          | Ok false | Raise _ => search_input_loop self rest (Some element)
          end
      end
  end.

Definition search_selectors : list string :=
  [ SEARCH_INPUT;
    "input[name='q']";
    "input[id*='search']";
    "input[placeholder*='Search']" ].

(** [search_for_city].  A locator object is always truthy, so [if
    search_input:] asks whether the variable is still [None]. *)
Definition search_for_city (self : t) (city_name : string) : M unit :=
  search_input <- search_input_loop self search_selectors None ;;
  match search_input with
  | Some element =>
      call (CallFill element city_name) (fill (page self) element city_name) ;;;
      call (CallPress element "Enter") (press (page self) element "Enter")
  | None =>
      let search_url := (Config.ui_base_url (settings self) ++ "/find?q=" ++ city_name)%string in
      navigate_to self search_url
  end ;;;
  wait_for_page_load self.

(** The body of the [try] in the four getters: [Some v] is [return v],
    [None] is falling out of the [if]. *)
Definition try_text (self : t) (timeout : Z) (selector : string)
  : M (option (option string)) :=
  element <- locator_first self selector ;;
  shown <- visible self element timeout ;;
  if shown : bool
  then (content <- call (CallTextContent element)
                        (text_content (page self) element) ;;
        ret (Some content))
  else ret None.

(** [for selector in selectors: try: ... return text / except: continue],
    then [return None]. *)
Fixpoint first_visible_text (self : t) (timeout : Z) (selectors : list string)
  : M (option string) :=
  match selectors with
  | [] => ret None
  | selector :: rest =>
      attempt <- catch (try_text self timeout selector) ;;
      match attempt with
      | Ok (Some content) => ret content
      | Ok None | Raise _ => first_visible_text self timeout rest
      end
  end.

(** The body of the [try] in the two checks: [true] is [return True]. *)
Definition try_visible (self : t) (timeout : Z) (selector : string) : M bool :=
  element <- locator_first self selector ;;
  visible self element timeout.

(** [for selector in selectors: try: ... return True / except: continue],
    then [return False]. *)
Fixpoint any_visible (self : t) (timeout : Z) (selectors : list string) : M bool :=
  match selectors with
  | [] => ret false
  | selector :: rest =>
      attempt <- catch (try_visible self timeout selector) ;;
      match attempt with
      | Ok true => ret true
      | Ok false | Raise _ => any_visible self timeout rest
      end
  end.

Definition temperature_selectors : list string :=
  [ TEMPERATURE; ".temperature"; ".temp"; "[class*='temperature']" ].

Definition get_temperature (self : t) : M (option string) :=
  first_visible_text self 5000 temperature_selectors.

Definition city_selectors : list string :=
  [ CITY_NAME; "h1"; "h2"; ".city"; "[class*='city']" ].

Definition get_city_name (self : t) : M (option string) :=
  first_visible_text self 5000 city_selectors.

Definition description_selectors : list string :=
  [ WEATHER_DESCRIPTION; ".description"; ".weather-desc"; "[class*='description']" ].

Definition get_weather_description (self : t) : M (option string) :=
  first_visible_text self 5000 description_selectors.

Definition weather_selectors : list string :=
  [ WEATHER_INFO; ".weather"; ".current-weather"; "[class*='weather']" ].

Definition is_weather_info_displayed (self : t) : M bool :=
  any_visible self 10000 weather_selectors.

Definition error_selectors : list string :=
  [ ERROR_MESSAGE; ".error"; ".alert-danger"; "[class*='error']" ].

Definition is_error_displayed (self : t) : M bool :=
  any_visible self 5000 error_selectors.

Definition get_error_message (self : t) : M (option string) :=
  displayed <- is_error_displayed self ;;
  if displayed : bool
  then first_visible_text self 5000 error_selectors
  else ret None.

End WeatherPage.

(* ------------------------------------------------------------------------- *)
(** ** src/api/weather_api.py *)

Module WeatherAPIClient.

(** [response.ok] is the library's own notion of "the status indicates
    success"; [json()] and [text()] may raise. *)
Record APIResponse : Type := mkResponse {
  status : Z;
  headers : list (string * string);
  ok : bool;
  json : outcome value;
  text : outcome string
}.

(** [request_context.get(url, params=params)]. *)
Record APIRequestContext : Type := mkContext {
  http_get : string -> dict -> outcome APIResponse
}.

(** [self] after [__init__]. *)
Record t : Type := mk {
  request_context : APIRequestContext;
  base_url : string;
  api_key : string
}.

Definition init (ctx : APIRequestContext) (settings : Config.Settings) : t :=
  {| request_context := ctx;
     base_url := Config.openweather_base_url settings;
     api_key := Config.openweather_api_key settings |}.

(** [dict(response.headers)]. *)
Definition headers_dict (response : APIResponse) : value :=
  PDict (map (fun kv => (fst kv, PStr (snd kv))) (headers response)).

(** [await response.json() if response.ok else await response.text()]. *)
Definition body (response : APIResponse) : outcome value :=
  if ok response
  then json response
  else match text response with
       | Ok s => Ok (PStr s)
       | Raise e => Raise e
       end.

(** The dictionary every wrapper returns. *)
Definition envelope (response : APIResponse) : outcome value :=
  match body response with
  | Ok data =>
      Ok (PDict [ ("status", PInt (status response));
                  ("headers", headers_dict response);
                  ("data", data) ])
  | Raise e => Raise e
  end.

(** One GET followed by the envelope. *)
Definition request (self : t) (url : string) (params : dict) : outcome value :=
  match http_get (request_context self) url params with
  | Ok response => envelope response
  | Raise e => Raise e
  end.

Definition units_of (kwargs : dict) : value :=
  get_default "units" (PStr "metric") kwargs.

(** Binding the arguments of a call [f(self, a, ..., **kwargs)]: a keyword
    that repeats one of the named parameters is rejected with [TypeError]
    before the body runs, so inside the body [kwargs] never holds one. *)
Definition bind_call (named : list string) (kwargs : dict) : outcome unit :=
  match List.find (fun name => has_key name kwargs) named with
  | Some name =>
      Raise ("TypeError: got multiple values for argument '" ++ name ++ "'")%string
  | None => Ok tt
  end.

Definition get_current_weather (self : t) (city : string) (kwargs : dict)
  : outcome value :=
  match bind_call [ "self"; "city" ] kwargs with
  | Raise e => Raise e
  | Ok _ =>
      let params :=
        update [ ("q", PStr city);
                 ("appid", PStr (api_key self));
                 ("units", units_of kwargs) ] kwargs in
      request self (base_url self ++ "/weather")%string params
  end.

Definition get_weather_by_coordinates (self : t) (lat lon : float) (kwargs : dict)
  : outcome value :=
  match bind_call [ "self"; "lat"; "lon" ] kwargs with
  | Raise e => Raise e
  | Ok _ =>
      let params :=
        update [ ("lat", PFloat lat);
                 ("lon", PFloat lon);
                 ("appid", PStr (api_key self));
                 ("units", units_of kwargs) ] kwargs in
      request self (base_url self ++ "/weather")%string params
  end.

Definition get_weather_by_city_id (self : t) (city_id : Z) (kwargs : dict)
  : outcome value :=
  match bind_call [ "self"; "city_id" ] kwargs with
  | Raise e => Raise e
  | Ok _ =>
      let params :=
        update [ ("id", PInt city_id);
                 ("appid", PStr (api_key self));
                 ("units", units_of kwargs) ] kwargs in
      request self (base_url self ++ "/weather")%string params
  end.

Definition get_5_day_forecast (self : t) (city : string) (kwargs : dict)
  : outcome value :=
  match bind_call [ "self"; "city" ] kwargs with
  | Raise e => Raise e
  | Ok _ =>
      let params :=
        update [ ("q", PStr city);
                 ("appid", PStr (api_key self));
                 ("units", units_of kwargs) ] kwargs in
      request self (base_url self ++ "/forecast")%string params
  end.

(** [search_cities(query, limit=5)]: [None] is the omitted argument. *)
Definition search_cities (self : t) (query : string) (limit : option Z)
  : outcome value :=
  let limit := match limit with Some n => n | None => 5%Z end in
  let params :=
    [ ("q", PStr query);
      ("limit", PInt limit);
      ("appid", PStr (api_key self)) ] in
  request self "http://api.openweathermap.org/geo/1.0/direct" params.

Definition weather_required_fields : list string :=
  [ "coord"; "weather"; "main"; "wind"; "clouds"; "dt"; "sys"; "id"; "name" ].

Definition forecast_required_fields : list string :=
  [ "cod"; "message"; "cnt"; "list"; "city" ].

(** The shared shape of the two validators: the [isinstance] guard, then
    [all(field in response_data for field in required_fields)]. *)
Definition validate (required_fields : list string) (response_data : value)
  : outcome bool :=
  if negb (isinstance_dict response_data)
  then Ok false
  else Py.all (fun field => contains field response_data) required_fields.

Definition validate_weather_response (response_data : value) : outcome bool :=
  validate weather_required_fields response_data.

Definition validate_forecast_response (response_data : value) : outcome bool :=
  validate forecast_required_fields response_data.

End WeatherAPIClient.

(* ------------------------------------------------------------------------- *)
(** ** tests/api/test_weather_api_working.py *)

Module Tests.

(** How far a test gets before its first request. *)
Inductive Verdict : Type :=
| Skipped (reason : string)
| Errored (e : exn)
| Requests (settings : Config.Settings).

(** The opening lines of every test of [TestWeatherAPIWorking]:
    [settings = get_settings()], then [pytest.skip] when
    [not settings.openweather_api_key]. *)
Definition api_key_prelude (env : Config.Environ) (p : Config.Process)
  : Verdict * Config.Process :=
  match Config.get_settings env p with
  | (Raise e, p') => (Errored e, p')
  | (Ok r, p') =>
      match Config.deref p' r with
      | None => (Errored "dangling settings reference", p')
      | Some settings =>
          if negb (truthy_str (Config.openweather_api_key settings))
          then (Skipped "OpenWeatherMap API key not provided", p')
          else (Requests settings, p')
      end
  end.

End Tests.

(* ------------------------------------------------------------------------- *)
(** ** Vocabulary of the properties *)

Module Observe.

Import BasePage WeatherPage.

(** The selectors a method tried, in order: one per [page.locator] call. *)
Definition candidates (tr : list Event) : list string :=
  flat_map (fun ev => match ev with CallLocator s => [s] | _ => [] end) tr.

(** The timeouts passed to the visibility checks, in order. *)
Definition timeouts (tr : list Event) : list Z :=
  flat_map (fun ev => match ev with CallIsVisible _ t => [t] | _ => [] end) tr.

(** The URLs navigated to, in order. *)
Definition navigations (tr : list Event) : list string :=
  flat_map (fun ev => match ev with CallGoto url => [url] | _ => [] end) tr.

(** The candidate resolves to a visible element: the locator is built and the
    visibility check answers [True] without raising. *)
Definition shows (self : t) (timeout : Z) (selector : string) : bool :=
  match locator (page self) selector with
  | Ok l =>
      match is_visible (page self) (First l) timeout with
      | Ok true => true
      | Ok false | Raise _ => false
      end
  | Raise _ => false
  end.

(** The calls made before [m]'s own. *)
Definition after_calls {A} (evs : list Event) (m : M A) : M A :=
  (fst m, (evs ++ snd m)%list).

(** The selector a locator was built from. *)
Fixpoint selector_of (l : Locator) : string :=
  match l with
  | Loc selector => selector
  | First l' => selector_of l'
  end.

(** A page on which every selector is well formed, described by which
    selectors are visible and what their text is; input, keyboard and
    navigation calls succeed. *)
Definition page_showing (visible_ : string -> outcome bool)
    (text_ : string -> outcome (option string)) : Page :=
  {| locator := fun selector => Ok (Loc selector);
     is_visible := fun l _ => visible_ (selector_of l);
     text_content := fun l => text_ (selector_of l);
     fill := fun _ _ => Ok tt;
     press := fun _ _ => Ok tt;
     goto := fun _ => Ok tt;
     wait_for_load_state := fun _ => Ok tt |}.

Definition no_environ : Config.Environ :=
  {| Config.env_environment := None;
     Config.env_debug := None;
     Config.env_openweather_api_key := None;
     Config.env_openweather_base_url := None;
     Config.env_browser_name := None;
     Config.env_headless := None;
     Config.env_browser_timeout := None;
     Config.env_test_timeout := None;
     Config.env_retry_count := None;
     Config.env_ui_base_url := None;
     Config.env_screenshot_mode := None;
     Config.env_video_mode := None;
     Config.env_allure_results_dir := None;
     Config.env_html_report_dir := None;
     Config.env_performance_threshold_ms := None;
     Config.env_unparsable := [];
     Config.env_dotenv_extra := [] |}.

(** The environment that sets only the API key. *)
Definition environ_with_key (key : string) : Config.Environ :=
  {| Config.env_environment := None;
     Config.env_debug := None;
     Config.env_openweather_api_key := Some key;
     Config.env_openweather_base_url := None;
     Config.env_browser_name := None;
     Config.env_headless := None;
     Config.env_browser_timeout := None;
     Config.env_test_timeout := None;
     Config.env_retry_count := None;
     Config.env_ui_base_url := None;
     Config.env_screenshot_mode := None;
     Config.env_video_mode := None;
     Config.env_allure_results_dir := None;
     Config.env_html_report_dir := None;
     Config.env_performance_threshold_ms := None;
     Config.env_unparsable := [];
     Config.env_dotenv_extra := [] |}.

Definition default_settings : Config.Settings :=
  Config.populate no_environ "0123456789abcdef".

(** A page with no search box, no weather widget and no error banner. *)
Definition blank_page : Page :=
  page_showing (fun _ => Ok false) (fun _ => Ok None).

Definition on_blank_page : t :=
  {| page := blank_page; settings := default_settings |}.

(** A page where only [.temp] is visible and reads 21. *)
Definition temp_page : Page :=
  page_showing (fun selector => Ok (String.eqb selector ".temp"))
               (fun selector => if String.eqb selector ".temp"
                                then Ok (Some "21")
                                else Ok None).

Definition on_temp_page : t :=
  {| page := temp_page; settings := default_settings |}.

(** A page where the first temperature candidate is visible when checked but
    reading its text raises (the node is replaced between the two calls),
    while [.temperature] is visible and reads 21. *)
Definition rerendering_page : Page :=
  page_showing
    (fun selector => Ok (String.eqb selector TEMPERATURE
                         || String.eqb selector ".temperature"))
    (fun selector => if String.eqb selector TEMPERATURE
                     then Raise "TimeoutError: text_content"
                     else if String.eqb selector ".temperature"
                          then Ok (Some "21")
                          else Ok None).

Definition on_rerendering_page : t :=
  {| page := rerendering_page; settings := default_settings |}.

(** A page on which every visibility check raises, as for a selector the
    engine cannot parse. *)
Definition malformed_page : Page :=
  page_showing (fun _ => Raise "Error: Unexpected token while parsing selector")
               (fun _ => Ok None).

Definition on_malformed_page : t :=
  {| page := malformed_page; settings := default_settings |}.

End Observe.

Module Calls.

Import WeatherAPIClient.

(** The five wrapper operations with their arguments. *)
Inductive Operation : Type :=
| CurrentWeather (city : string) (kwargs : dict)
| ByCoordinates (lat lon : float) (kwargs : dict)
| ByCityId (city_id : Z) (kwargs : dict)
| FiveDayForecast (city : string) (kwargs : dict)
| SearchCities (query : string) (limit : option Z).

Definition perform (self : t) (op : Operation) : outcome value :=
  match op with
  | CurrentWeather city kwargs => get_current_weather self city kwargs
  | ByCoordinates lat lon kwargs => get_weather_by_coordinates self lat lon kwargs
  | ByCityId city_id kwargs => get_weather_by_city_id self city_id kwargs
  | FiveDayForecast city kwargs => get_5_day_forecast self city kwargs
  | SearchCities query limit => search_cities self query limit
  end.

(** The named parameters of the method an operation calls, and its keyword
    arguments. *)
Definition parameters (op : Operation) : list string :=
  match op with
  | CurrentWeather _ _ | FiveDayForecast _ _ => [ "self"; "city" ]
  | ByCoordinates _ _ _ => [ "self"; "lat"; "lon" ]
  | ByCityId _ _ => [ "self"; "city_id" ]
  | SearchCities _ _ => [ "self"; "query"; "limit" ]
  end.

Definition keywords (op : Operation) : dict :=
  match op with
  | CurrentWeather _ kwargs | FiveDayForecast _ kwargs
  | ByCoordinates _ _ kwargs | ByCityId _ kwargs => kwargs
  | SearchCities _ _ => []
  end.

(** The call is well formed: no keyword repeats a named parameter. *)
Definition accepted (op : Operation) : bool :=
  negb (existsb (fun name => has_key name (keywords op)) (parameters op)).

(** The wrapper returned a dictionary with exactly the keys status, headers
    and data, holding the response's status, its headers and [data]. *)
Definition returns_envelope (returned : outcome value) (response : APIResponse)
    (data : value) : Prop :=
  exists d,
    returned = Ok (PDict d)
    /\ keys d = [ "status"; "headers"; "data" ]
    /\ get "status" d = Some (PInt (status response))
    /\ get "headers" d
       = Some (PDict (map (fun kv => (fst kv, PStr (snd kv))) (headers response)))
    /\ get "data" d = Some data.

(** What the caller of a wrapper gets for a given answer of its GET: the
    exception of the GET; else the envelope with the parsed JSON when the
    response is ok and with the raw text when it is not; else the exception
    of reading the body. *)
Definition reply (answer : outcome APIResponse) : outcome value :=
  match answer with
  | Raise e => Raise e
  | Ok response =>
      let envelope_with data :=
        PDict [ ("status", PInt (status response));
                ("headers",
                 PDict (map (fun kv => (fst kv, PStr (snd kv))) (headers response)));
                ("data", data) ] in
      if ok response
      then match json response with
           | Ok parsed => Ok (envelope_with parsed)
           | Raise e => Raise e
           end
      else match text response with
           | Ok raw => Ok (envelope_with (PStr raw))
           | Raise e => Raise e
           end
  end.

(** A context that answers every GET with 200 and the JSON document given. *)
Definition always_200 (document : value) : APIRequestContext :=
  {| http_get := fun _ _ =>
       Ok {| status := 200;
             headers := [ ("content-type", "application/json") ];
             ok := true;
             json := Ok document;
             text := Ok "unread" |} |}.

End Calls.

(* ------------------------------------------------------------------------- *)
(** ** src/utils/helpers.py *)

Module Helpers.

(** [string.ascii_letters] and [string.digits]. *)
Definition ascii_letters : string :=
  "abcdefghijklmnopqrstuvwxyzABCDEFGHIJKLMNOPQRSTUVWXYZ".
Definition digits : string := "0123456789".

(** The state of the [random] module as the stream of raw draws it will
    produce: the k-th draw below a bound [n] is the k-th raw number modulo
    [n]. *)
Definition Random : Type := nat -> nat.

(** [random.choice(seq)] at the k-th draw; an empty sequence raises
    [IndexError]. *)
Definition choice (rng : Random) (k : nat) (seq : string) : outcome ascii :=
  match String.get (rng k mod String.length seq) seq with
  | Some c => Ok c
  | None => Raise "IndexError: Cannot choose from an empty sequence"
  end.

(** [''.join(random.choice(letters) for _ in range(length))]: the draws
    [k], [k+1], ... one per character. *)
Fixpoint join_choices (rng : Random) (letters : string) (k n : nat)
  : outcome string :=
  match n with
  | O => Ok EmptyString
  | S n' =>
      match choice rng k letters with
      | Raise e => Raise e
      | Ok c =>
          match join_choices rng letters (S k) n' with
          | Raise e => Raise e
          | Ok rest => Ok (String c rest)
          end
      end
  end.

(** [generate_random_string(length)]; [range] of a negative number is
    empty. *)
Definition generate_random_string (rng : Random) (length : Z) : outcome string :=
  let letters := (ascii_letters ++ digits)%string in
  join_choices rng letters 0 (Z.to_nat length).

(** What the [Faker] instance answers to each call [generate_test_data]
    makes. *)
Record Faker : Type := mkFaker {
  email : string;
  first_name : string;
  last_name : string;
  user_name : string;
  phone_number : string;
  address : string;
  city : string;
  country : string;
  company : string;
  text : Z -> string
}.

(** [generate_test_data()]. *)
Definition generate_test_data (fake : Faker) (rng : Random) : outcome dict :=
  match generate_random_string rng 12 with
  | Raise e => Raise e
  | Ok password =>
      Ok [ ("email", PStr (email fake));
           ("first_name", PStr (first_name fake));
           ("last_name", PStr (last_name fake));
           ("username", PStr (user_name fake));
           ("password", PStr password);
           ("phone", PStr (phone_number fake));
           ("address", PStr (address fake));
           ("city", PStr (city fake));
           ("country", PStr (country fake));
           ("company", PStr (company fake));
           ("text", PStr (text fake 200)) ]
  end.

(** [generate_cities()]. *)
Definition generate_cities : list string :=
  [ "London"; "New York"; "Tokyo"; "Paris"; "Berlin"; "Sydney"; "Moscow";
    "Mumbai"; "Cairo"; "Rio de Janeiro" ].

(** What [wait_for_condition] observes: the answer of the k-th call of
    [condition] and the k-th reading of the event loop's clock. *)
Record Waiting : Type := mkWaiting {
  condition : nat -> outcome bool;
  loop_time : nat -> float
}.

(** The [while True] loop at its k-th round.  [Some (r, sleeps)] is the
    result with the intervals slept before it; [None] is running out of
    [fuel] rounds.  The timeout is compared as the float it denotes. *)
Fixpoint wait_loop (fuel : nat) (w : Waiting) (timeout interval : float)
    (error_message : string) (start_time : float) (k : nat)
  : option (outcome unit * list float) :=
  match fuel with
  | O => None
  | S fuel' =>
      match condition w k with
      | Raise e => Some (Raise e, [])
      | Ok true => Some (Ok tt, [])
      | Ok false =>
          let current_time := loop_time w (S k) in
          if PrimFloat.leb timeout (PrimFloat.sub current_time start_time)
          then Some (Raise ("TimeoutError: " ++ error_message)%string, [])
          else
            match wait_loop fuel' w timeout interval error_message
                            start_time (S k) with
            | Some (r, sleeps) => Some (r, interval :: sleeps)
            | None => None
            end
      end
  end.

(** [wait_for_condition(condition, timeout, interval, error_message)]. *)
Definition wait_for_condition (fuel : nat) (w : Waiting)
    (timeout interval : float) (error_message : string)
  : option (outcome unit * list float) :=
  let start_time := loop_time w 0 in
  wait_loop fuel w timeout interval error_message start_time 0.

(** [validate_response_schema]: no [isinstance] guard here. *)
Definition validate_response_schema (response_data : value)
    (required_fields : list string) : outcome bool :=
  Py.all (fun field => contains field response_data) required_fields.

End Helpers.

(* ------------------------------------------------------------------------- *)
(** ** src/utils/logger.py *)

Module Logger.

(** The handler [get_logger] installs. *)
Record Handler : Type := mkHandler {
  stream : string;
  format : string;
  datefmt : string;
  log_colors : list (string * string)
}.

(** A [logging.Logger]: its handlers and its level ([NOTSET] is 0, [INFO]
    is 20). *)
Record Log : Type := mkLog {
  handlers : list Handler;
  level : Z
}.

(** The logging manager: [logging.getLogger(name)] is the same logger at
    every call with the same name. *)
Definition Manager : Type := string -> Log.

Definition NOTSET : Z := 0.
Definition INFO : Z := 20.

(** A process in which no logger has been configured. *)
Definition unconfigured : Manager := fun _ => {| handlers := []; level := NOTSET |}.

Definition module_name : string := "src.utils.logger".

Definition colored_console : Handler :=
  {| stream := "sys.stdout";
     format := "%(log_color)s%(asctime)s - %(name)s - %(levelname)s - %(message)s%(reset)s";
     datefmt := "%Y-%m-%d %H:%M:%S";
     log_colors := [ ("DEBUG", "cyan"); ("INFO", "green"); ("WARNING", "yellow");
                     ("ERROR", "red"); ("CRITICAL", "red,bg_white") ] |}.

(** [name or __name__]. *)
Definition logger_name (name : option string) : string :=
  match name with
  | Some n => if truthy_str n then n else module_name
  | None => module_name
  end.

Definition store (m : Manager) (name : string) (l : Log) : Manager :=
  fun n => if String.eqb n name then l else m n.

(** [get_logger(name)]: the name of the logger returned and the manager
    afterwards. *)
Definition get_logger (name : option string) (m : Manager) : string * Manager :=
  let n := logger_name name in
  let logger := m n in
  match handlers logger with
  | [] =>
      (n, store m n {| handlers := (handlers logger ++ [colored_console])%list;
                       level := INFO |})
  | _ :: _ => (n, m)
  end.

End Logger.

(* ------------------------------------------------------------------------- *)
(** ** More of src/pages *)

Module PageActions.

Import BasePage.

(** [BasePage.wait_for_element]: [timeout or self.settings.browser_timeout],
    then [element.wait_for(state="visible", timeout=timeout)], whose answer
    is [wait_for]. *)
Definition wait_for_element (self : t)
    (wait_for : Locator -> string -> Z -> outcome unit)
    (locator : string + Locator) (timeout : option Z) : M unit :=
  let timeout :=
    match timeout with
    | Some n => if Z.eqb n 0 then Config.browser_timeout (settings self) else n
    | None => Config.browser_timeout (settings self)
    end in
  element <- element_of self locator ;;
  (wait_for element "visible" timeout, []).

(** [WeatherPage.navigate_to_weather_page]. *)
Definition navigate_to_weather_page (self : t) : M unit :=
  navigate_to self (Config.ui_base_url (settings self)) ;;;
  wait_for_page_load self.

End PageActions.

(* ------------------------------------------------------------------------- *)
(** ** More vocabulary *)

Module Observe2.

Import WeatherAPIClient.


(** The client built on a request context. *)
Definition client (base key : string) (ctx : APIRequestContext) : t :=
  {| request_context := ctx; base_url := base; api_key := key |}.

(** The element a [str | Locator] argument stands for on a page: the locator
    itself, or what [page.locator] builds from the selector. *)
Definition resolves (self : BasePage.t) (locator : string + Locator)
    (element : Locator) : Prop :=
  match locator with
  | inl selector => Browser.locator (BasePage.page self) selector = Ok element
  | inr l => l = element
  end.

(** The environment that sets the key and a [DEBUG] that is no boolean. *)
Definition environ_with_bad_debug (key : string) : Config.Environ :=
  {| Config.env_environment := None;
     Config.env_debug := None;
     Config.env_openweather_api_key := Some key;
     Config.env_openweather_base_url := None;
     Config.env_browser_name := None;
     Config.env_headless := None;
     Config.env_browser_timeout := None;
     Config.env_test_timeout := None;
     Config.env_retry_count := None;
     Config.env_ui_base_url := None;
     Config.env_screenshot_mode := None;
     Config.env_video_mode := None;
     Config.env_allure_results_dir := None;
     Config.env_html_report_dir := None;
     Config.env_performance_threshold_ms := None;
     Config.env_unparsable := [ "debug" ];
     Config.env_dotenv_extra := [] |}.

(** A [wait_for] that succeeds only when given the default browser timeout
    of 30000 ms. *)
Definition patient_wait (element : Locator) (state : string) (timeout : Z)
  : outcome unit :=
  if Z.eqb timeout 30000
  then Ok tt
  else Raise "TimeoutError: wait_for".

(** A page on which reading the text of any element times out. *)
Definition unreadable_page : Page :=
  Observe.page_showing (fun _ => Ok true)
                       (fun _ => Raise "TimeoutError: text_content").

Definition on_unreadable_page : BasePage.t :=
  {| BasePage.page := unreadable_page;
     BasePage.settings := Observe.default_settings |}.


(** [None], a boolean or a number: a value the operator [in] cannot search. *)
Definition is_scalar (v : value) : bool :=
  match v with
  | PNone | PBool _ | PInt _ | PFloat _ => true
  | PStr _ | PList _ | PDict _ => false
  end.

(** The manager after a sequence of [get_logger] calls. *)
Definition after_get_logger (names : list (option string)) (m : Logger.Manager)
  : Logger.Manager :=
  fold_left (fun acc name => snd (Logger.get_logger name acc)) names m.

(** The deadline test [wait_for_condition] makes after the k-th failed
    check: [current_time - start_time >= timeout]. *)
Definition timed_out (w : Helpers.Waiting) (timeout : float) (k : nat) : bool :=
  PrimFloat.leb timeout
    (PrimFloat.sub (Helpers.loop_time w (S k)) (Helpers.loop_time w 0)).

(** The state of the settings module is either untouched or holds the one
    object. *)
Definition settled (p : Config.Process) : Prop :=
  (Config._settings p = None /\ Config.heap p = [])
  \/ (Config._settings p = Some 0%nat /\ List.length (Config.heap p) = 1%nat).

(** Total of the timeouts handed to the visibility checks. *)
Definition waited (tr : list Event) : Z :=
  fold_right Z.add 0%Z (Observe.timeouts tr).

(** ASCII letter or digit. *)
Definition alphanumeric (c : ascii) : bool :=
  let n := nat_of_ascii c in
  ((48 <=? n) && (n <=? 57) || (65 <=? n) && (n <=? 90)
   || (97 <=? n) && (n <=? 122))%nat.

Fixpoint string_forall (p : ascii -> bool) (s : string) : bool :=
  match s with
  | EmptyString => true
  | String c rest => p c && string_forall p rest
  end.

(** A page on which no locator can be built. *)
Definition closed_page : Page :=
  {| locator := fun _ => Raise "Error: Target page has been closed";
     is_visible := fun _ _ => Ok false;
     text_content := fun _ => Ok None;
     fill := fun _ _ => Ok tt;
     press := fun _ _ => Ok tt;
     goto := fun _ => Ok tt;
     wait_for_load_state := fun _ => Ok tt |}.

Definition on_closed_page : BasePage.t :=
  {| BasePage.page := closed_page; BasePage.settings := Observe.default_settings |}.

(** A page whose search box is visible but rejects input. *)
Definition readonly_page : Page :=
  {| locator := fun selector => Ok (Loc selector);
     is_visible := fun _ _ => Ok true;
     text_content := fun _ => Ok None;
     fill := fun _ _ => Raise "Error: Element is not editable";
     press := fun _ _ => Ok tt;
     goto := fun _ => Ok tt;
     wait_for_load_state := fun _ => Ok tt |}.

Definition on_readonly_page : BasePage.t :=
  {| BasePage.page := readonly_page; BasePage.settings := Observe.default_settings |}.

(** A page where the first error candidate is visible and reads "city not
    found". *)
Definition error_page : Page :=
  Observe.page_showing
    (fun selector => Ok (String.eqb selector WeatherPage.ERROR_MESSAGE))
    (fun selector => if String.eqb selector WeatherPage.ERROR_MESSAGE
                     then Ok (Some "city not found")
                     else Ok None).

Definition on_error_page : BasePage.t :=
  {| BasePage.page := error_page; BasePage.settings := Observe.default_settings |}.

(** A condition that becomes true at its third call, under a clock that
    advances half a second per reading. *)
Definition third_time_lucky : Helpers.Waiting :=
  {| Helpers.condition := fun k => Ok (2 <=? k)%nat;
     Helpers.loop_time := fun k =>
       match k with
       | O => 100%float
       | 1%nat => 100.5%float
       | 2%nat => 101%float
       | _ => 101.5%float
       end |}.

(** A condition that never holds, under the same clock. *)
Definition never_true : Helpers.Waiting :=
  {| Helpers.condition := fun _ => Ok false;
     Helpers.loop_time := Helpers.loop_time third_time_lucky |}.

(** A process in which the logger [WeatherPage] was configured elsewhere with
    its own handler at level 10. *)
Definition preconfigured : Logger.Manager :=
  Logger.store Logger.unconfigured "WeatherPage"
    {| Logger.handlers := [ {| Logger.stream := "sys.stderr";
                               Logger.format := "%(message)s";
                               Logger.datefmt := "";
                               Logger.log_colors := [] |} ];
       Logger.level := 10 |}.

(** A context that answers every GET with 404 and the body text given. *)
Definition always_404 (body_text : string) : APIRequestContext :=
  {| http_get := fun _ _ =>
       Ok {| status := 404;
             headers := [ ("content-type", "application/json") ];
             ok := false;
             json := Ok (PDict [ ("cod", PStr "404");
                                 ("message", PStr "city not found") ]);
             text := Ok body_text |} |}.

End Observe2.

(* ========================================================================= *)
(** * Properties *)

(* ------------------------------------------------------------------------- *)
(** ** The response validators *)

Section Validators.

Import WeatherAPIClient.

Lemma has_key_In (k : string) (d : dict) :
  has_key k d = true <-> In k (keys d).
Proof.
  unfold has_key. rewrite existsb_exists. split.
  - intros [k' [Hin Heq]]. apply String.eqb_eq in Heq. now subst.
  - intros Hin. exists k. split; [assumption | apply String.eqb_refl].
Qed.

(** On a dictionary the key test cannot raise, so [all] is a plain
    conjunction over the required fields. *)
Lemma validate_dict (required_fields : list string) (kvs : dict) :
  validate required_fields (PDict kvs)
  = Ok (forallb (fun field => has_key field kvs) required_fields).
Proof.
  unfold validate. simpl.
  induction required_fields as [| f fs IH]; simpl.
  - reflexivity.
  - destruct (has_key f kvs); simpl; [exact IH | reflexivity].
Qed.

Lemma validate_dict_true (required_fields : list string) (kvs : dict) :
  validate required_fields (PDict kvs) = Ok true
  <-> (forall field, In field required_fields -> In field (keys kvs)).
Proof.
  rewrite validate_dict. split.
  - intros H field Hin. injection H as H.
    rewrite forallb_forall in H. apply has_key_In. now apply H.
  - intros H. f_equal. apply forallb_forall.
    intros field Hin. apply has_key_In. now apply H.
Qed.

Lemma validate_dict_total (required_fields : list string) (kvs : dict) :
  validate required_fields (PDict kvs) = Ok true
  \/ validate required_fields (PDict kvs) = Ok false.
Proof.
  rewrite validate_dict.
  destruct (forallb _ _); [left | right]; reflexivity.
Qed.

(** C5.  On a mapping, [validate_weather_response] answers [True] exactly when
    the nine keys coord, weather, main, wind, clouds, dt, sys, id, name are all
    present, and [validate_forecast_response] exactly when the five keys cod,
    message, cnt, list, city are all present; otherwise they answer [False].
    Nothing is asked of the values stored under the keys.  In particular a
    mapping without the key list is rejected by the forecast validator. *)
Theorem validators_check_required_keys (kvs : dict) :
  (validate_weather_response (PDict kvs) = Ok true
   <-> (forall field,
           In field [ "coord"; "weather"; "main"; "wind"; "clouds";
                      "dt"; "sys"; "id"; "name" ] ->
           In field (keys kvs)))
  /\ (validate_weather_response (PDict kvs) = Ok true
      \/ validate_weather_response (PDict kvs) = Ok false)
  /\ (validate_forecast_response (PDict kvs) = Ok true
      <-> (forall field,
              In field [ "cod"; "message"; "cnt"; "list"; "city" ] ->
              In field (keys kvs)))
  /\ (validate_forecast_response (PDict kvs) = Ok true
      \/ validate_forecast_response (PDict kvs) = Ok false)
  /\ (~ In "list" (keys kvs) -> validate_forecast_response (PDict kvs) = Ok false).
Proof.
  unfold validate_weather_response, validate_forecast_response.
  repeat split.
  - apply validate_dict_true.
  - apply validate_dict_true.
  - apply validate_dict_total.
  - apply validate_dict_true.
  - apply validate_dict_true.
  - apply validate_dict_total.
  - intros Hmissing.
    destruct (validate_dict_total forecast_required_fields kvs) as [Hyes | Hno];
      [| exact Hno].
    exfalso. apply Hmissing.
    apply (proj1 (validate_dict_true forecast_required_fields kvs) Hyes).
    simpl. tauto.
Qed.

(** A forecast body with its five keys and arbitrary values is accepted, and
    the same body without list is rejected. *)
Lemma validators_check_required_keys_witness :
  validate_forecast_response
    (PDict [ ("cod", PStr "200"); ("message", PInt 0); ("cnt", PNone);
             ("list", PList []); ("city", PDict []) ]) = Ok true
  /\ validate_forecast_response
       (PDict [ ("cod", PStr "200"); ("message", PInt 0); ("cnt", PNone);
                ("city", PDict []) ]) = Ok false.
Proof.
  split.
  - apply (proj1 (proj2 (proj2 (validators_check_required_keys _)))).
    simpl. intros field H.
    repeat (destruct H as [H | H]; [subst; simpl; tauto |]). contradiction.
  - apply (proj2 (proj2 (proj2 (proj2 (validators_check_required_keys _))))).
    simpl. intros H.
    repeat (destruct H as [H | H]; [discriminate |]). contradiction.
Defined.

(** Without the guard the key test itself would raise on [None]. *)
Example unguarded_key_test_raises :
  Py.all (fun field => contains field PNone) weather_required_fields
  = Raise "TypeError: argument is not iterable".
Proof. reflexivity. Qed.

(** C10.  On every value that is not a mapping ([None], a string, a list, a
    number) both validators return [False] and do not raise: the [isinstance]
    guard answers before any key is looked up. *)
Theorem validators_reject_non_mappings (response_data : value) :
  isinstance_dict response_data = false ->
  validate_weather_response response_data = Ok false
  /\ validate_forecast_response response_data = Ok false.
Proof.
  intros Hguard.
  unfold validate_weather_response, validate_forecast_response, validate.
  rewrite Hguard. split; reflexivity.
Qed.

Lemma validators_reject_non_mappings_witness :
  (validate_weather_response PNone = Ok false
   /\ validate_forecast_response PNone = Ok false)
  /\ (validate_weather_response (PStr "coord weather main") = Ok false
      /\ validate_forecast_response (PStr "coord weather main") = Ok false)
  /\ (validate_weather_response (PList [PStr "cod"; PStr "list"]) = Ok false
      /\ validate_forecast_response (PList [PStr "cod"; PStr "list"]) = Ok false)
  /\ (validate_weather_response (PInt 404) = Ok false
      /\ validate_forecast_response (PInt 404) = Ok false).
Proof.
  exact (conj (validators_reject_non_mappings PNone eq_refl)
          (conj (validators_reject_non_mappings (PStr "coord weather main") eq_refl)
             (conj (validators_reject_non_mappings
                      (PList [PStr "cod"; PStr "list"]) eq_refl)
                   (validators_reject_non_mappings (PInt 404) eq_refl)))).
Defined.

End Validators.

(* ------------------------------------------------------------------------- *)
(** ** The API wrappers *)

Section Wrappers.

Import WeatherAPIClient Calls.

(** One GET and its envelope, read off the answer of the GET. *)
Lemma request_reply (self : t) (url : string) (params : dict) :
  request self url params = reply (http_get (request_context self) url params).
Proof.
  unfold request, reply, envelope, body, headers_dict.
  destruct (http_get (request_context self) url params) as [response | e];
    [| reflexivity].
  destruct (ok response).
  - destruct (json response); reflexivity.
  - destruct (text response); reflexivity.
Qed.

Lemma bind_call_accepts (named : list string) (kwargs : dict) :
  existsb (fun name => has_key name kwargs) named = false ->
  bind_call named kwargs = Ok tt.
Proof.
  unfold bind_call. intros H.
  destruct (find (fun name => has_key name kwargs) named) as [name |] eqn:Hfind;
    [| reflexivity].
  apply find_some in Hfind. destruct Hfind as [Hin Hkey].
  assert (Hex : existsb (fun name => has_key name kwargs) named = true)
    by (apply existsb_exists; exists name; split; assumption).
  congruence.
Qed.

(** An accepted call is one GET, whose URL and parameters do not depend on
    the request context, answered by [reply]. *)
Lemma perform_reply (base key : string) (op : Operation) :
  accepted op = true ->
  exists url params,
    forall ctx : APIRequestContext,
      perform {| request_context := ctx; base_url := base; api_key := key |} op
      = reply (http_get ctx url params).
Proof.
  unfold accepted. intros Haccepted. apply negb_true_iff in Haccepted.
  destruct op as [city kwargs | lat lon kwargs | city_id kwargs | city kwargs
                 | query limit]; simpl in Haccepted.
  - exists (base ++ "/weather")%string,
      (update [ ("q", PStr city); ("appid", PStr key);
                ("units", units_of kwargs) ] kwargs).
    intros ctx. unfold perform, get_current_weather.
    rewrite (bind_call_accepts [ "self"; "city" ] kwargs Haccepted).
    apply request_reply.
  - exists (base ++ "/weather")%string,
      (update [ ("lat", PFloat lat); ("lon", PFloat lon); ("appid", PStr key);
                ("units", units_of kwargs) ] kwargs).
    intros ctx. unfold perform, get_weather_by_coordinates.
    rewrite (bind_call_accepts [ "self"; "lat"; "lon" ] kwargs Haccepted).
    apply request_reply.
  - exists (base ++ "/weather")%string,
      (update [ ("id", PInt city_id); ("appid", PStr key);
                ("units", units_of kwargs) ] kwargs).
    intros ctx. unfold perform, get_weather_by_city_id.
    rewrite (bind_call_accepts [ "self"; "city_id" ] kwargs Haccepted).
    apply request_reply.
  - exists (base ++ "/forecast")%string,
      (update [ ("q", PStr city); ("appid", PStr key);
                ("units", units_of kwargs) ] kwargs).
    intros ctx. unfold perform, get_5_day_forecast.
    rewrite (bind_call_accepts [ "self"; "city" ] kwargs Haccepted).
    apply request_reply.
  - exists "http://api.openweathermap.org/geo/1.0/direct",
      [ ("q", PStr query);
        ("limit", PInt match limit with Some n => n | None => 5%Z end);
        ("appid", PStr key) ].
    intros ctx. unfold perform, search_cities. apply request_reply.
Qed.

(** C4.  Each of the five wrappers, called with keyword arguments that do
    not repeat one of its named parameters, makes one GET, at a URL and with
    parameters that do not depend on the request context.  When the GET
    answers, the wrapper returns a dictionary with exactly the keys status,
    headers and data (in that order), holding the response's status and
    headers; data is the parsed JSON body when [response.ok] holds and the
    raw response text when it does not.  The wrapper raises exactly when the
    GET raises or reading that body raises, and then raises the same
    exception. *)
Theorem api_wrappers_return_envelope (base key : string) (op : Operation) :
  accepted op = true ->
  exists url params,
    forall ctx : APIRequestContext,
      let returned :=
        perform {| request_context := ctx; base_url := base; api_key := key |} op in
      match http_get ctx url params with
      | Raise e => returned = Raise e
      | Ok response =>
          if ok response
          then match json response with
               | Ok parsed => returns_envelope returned response parsed
               | Raise e => returned = Raise e
               end
          else match text response with
               | Ok raw => returns_envelope returned response (PStr raw)
               | Raise e => returned = Raise e
               end
      end.
Proof.
  intros Haccepted.
  destruct (perform_reply base key op Haccepted) as [url [params Hreply]].
  exists url, params. intros ctx returned. subst returned.
  rewrite (Hreply ctx). unfold reply.
  destruct (http_get ctx url params) as [response | e]; [| reflexivity].
  destruct (ok response).
  - destruct (json response) as [parsed | e]; [| reflexivity].
    eexists. repeat split.
  - destruct (text response) as [raw | e]; [| reflexivity].
    eexists. repeat split.
Qed.

(** A 200 answer with a JSON document comes back parsed, a 404 answer comes
    back as its raw text, both under the three keys. *)
Lemma api_wrappers_return_envelope_witness :
  returns_envelope
    (perform {| request_context := always_200 (PDict [ ("name", PStr "London") ]);
                base_url := "https://api.openweathermap.org/data/2.5";
                api_key := "0123456789abcdef" |}
             (CurrentWeather "London" [ ("units", PStr "imperial") ]))
    {| status := 200;
       headers := [ ("content-type", "application/json") ];
       ok := true;
       json := Ok (PDict [ ("name", PStr "London") ]);
       text := Ok "unread" |}
    (PDict [ ("name", PStr "London") ]).
Proof.
  destruct (api_wrappers_return_envelope
              "https://api.openweathermap.org/data/2.5" "0123456789abcdef"
              (CurrentWeather "London" [ ("units", PStr "imperial") ]) eq_refl)
    as [url [params H]].
  exact (H (always_200 (PDict [ ("name", PStr "London") ]))).
Defined.

End Wrappers.

(* ------------------------------------------------------------------------- *)
(** ** The settings singleton *)

Section Singleton.

Import Config.

(** Once [_settings] is set, a call neither constructs nor changes anything. *)
Lemma get_settings_cached (env : Environ) (p : Process) (r : ref) :
  _settings p = Some r -> get_settings env p = (Ok r, p).
Proof. intros H. unfold get_settings. now rewrite H. Qed.

Lemma get_settings_calls_cached (envs : list Environ) (p : Process) (r : ref) :
  _settings p = Some r ->
  get_settings_calls envs p = (map (fun _ => Ok r) envs, p).
Proof.
  intros H. induction envs as [| env rest IH]; simpl.
  - reflexivity.
  - rewrite (get_settings_cached env p r H), IH. reflexivity.
Qed.

Lemma get_settings_calls_app (envs1 envs2 : list Environ) (p : Process) :
  get_settings_calls (envs1 ++ envs2) p
  = (fst (get_settings_calls envs1 p)
       ++ fst (get_settings_calls envs2 (snd (get_settings_calls envs1 p))),
     snd (get_settings_calls envs2 (snd (get_settings_calls envs1 p))))%list.
Proof.
  revert p. induction envs1 as [| env rest IH]; intros p; simpl.
  - now destruct (get_settings_calls envs2 p).
  - destruct (get_settings env p) as [r p1]. rewrite IH.
    destruct (get_settings_calls rest p1) as [rs p2]. simpl.
    destruct (get_settings_calls envs2 p2) as [rs' p3]. reflexivity.
Qed.

(** While construction fails, nothing is stored: every call raises what the
    constructor raised and the module stays as freshly imported. *)
Lemma get_settings_calls_failing (envs : list Environ) :
  Forall (fun env => is_ok (Settings_new env) = false) envs ->
  get_settings_calls envs fresh
  = (map (fun env => match Settings_new env with
                     | Ok _ => Ok 0%nat
                     | Raise e => Raise e
                     end) envs,
     fresh).
Proof.
  induction 1 as [| env rest Henv Hrest IH]; simpl.
  - reflexivity.
  - unfold get_settings at 1. simpl.
    destruct (Settings_new env) as [s | e]; [discriminate |].
    rewrite IH. reflexivity.
Qed.

(** C8 (as amended).  [get_settings] is a lazy singleton from the first call
    whose construction succeeds.  A call whose construction fails raises the
    constructor's exception and stores nothing.  The first call under which
    [Settings()] succeeds constructs the one object; every later call,
    whatever the environment has become, returns the same reference and
    leaves the heap as it was: nothing is constructed again. *)
Theorem get_settings_is_lazy_singleton (failing : list Environ) (env : Environ)
    (later : list Environ) (s : Settings) :
  Forall (fun env' => is_ok (Settings_new env') = false) failing ->
  Settings_new env = Ok s ->
  get_settings_calls (failing ++ env :: later) fresh
  = ((map (fun env' => match Settings_new env' with
                       | Ok _ => Ok 0%nat
                       | Raise e => Raise e
                       end) failing
      ++ Ok 0%nat :: map (fun _ => Ok 0%nat) later)%list,
     {| heap := [s]; _settings := Some 0%nat |}).
Proof.
  intros Hfailing Hnew.
  rewrite get_settings_calls_app, (get_settings_calls_failing failing Hfailing).
  simpl. unfold get_settings at 1 2. simpl. rewrite Hnew. simpl.
  rewrite (get_settings_calls_cached later _ 0%nat); reflexivity.
Qed.

(** The key is missing at the first call, then defined, then removed again:
    the object is built at the second call and the third returns it. *)
Lemma get_settings_is_lazy_singleton_witness :
  get_settings_calls
    [ Observe.no_environ; Observe.environ_with_key "0123456789abcdef";
      Observe.no_environ ] fresh
  = ([ Raise "ValidationError: openweather_api_key: Field required";
       Ok 0%nat; Ok 0%nat ],
     {| heap := [ populate (Observe.environ_with_key "0123456789abcdef")
                           "0123456789abcdef" ];
        _settings := Some 0%nat |}).
Proof.
  exact (get_settings_is_lazy_singleton
           [ Observe.no_environ ] (Observe.environ_with_key "0123456789abcdef")
           [ Observe.no_environ ]
           (populate (Observe.environ_with_key "0123456789abcdef")
                     "0123456789abcdef")
           (Forall_cons Observe.no_environ
              (eq_refl : is_ok (Settings_new Observe.no_environ) = false)
              (Forall_nil _))
           eq_refl).
Defined.

(** C8 as stated fails: when the key is missing at the first call and defined
    at the second, the object is constructed by the second call, not the
    first. *)
Lemma settings_constructed_after_first_call :
  get_settings Observe.no_environ fresh
  = (Raise "ValidationError: openweather_api_key: Field required", fresh)
  /\ heap (snd (get_settings_calls [ Observe.no_environ ] fresh)) = []
  /\ fst (get_settings_calls
            [ Observe.no_environ; Observe.environ_with_key "0123456789abcdef" ]
            fresh)
     = [ Raise "ValidationError: openweather_api_key: Field required"; Ok 0%nat ]
  /\ List.length
       (heap (snd (get_settings_calls
                     [ Observe.no_environ;
                       Observe.environ_with_key "0123456789abcdef" ] fresh)))
     = 1%nat.
Proof. repeat split. Qed.

End Singleton.

(* ------------------------------------------------------------------------- *)
(** ** BasePage.get_text *)

Section GetText.

Import BasePage Observe2.

(** C9 (as amended).  For every locator, a selector string or a locator
    object, whose element is obtained: when [text_content] returns,
    [get_text] returns a string, never [None], namely the text itself, or the
    empty string when the text content is [None]; when [text_content] raises,
    [get_text] raises the same exception instead of returning.  When
    [page.locator] raises on a selector string, [get_text] raises that
    exception. *)
Theorem get_text_returns_string (self : t) (locator : string + Locator)
    (element : Locator) :
  resolves self locator element ->
  (forall content,
      text_content (page self) element = Ok content ->
      result (get_text self locator)
      = Ok (Some match content with Some s => s | None => "" end))
  /\ (forall e,
         text_content (page self) element = Raise e ->
         result (get_text self locator) = Raise e)
  /\ (forall selector e,
         Browser.locator (page self) selector = Raise e ->
         result (get_text self (inl selector)) = Raise e).
Proof.
  intros Hresolves.
  assert (Helement : element_of self locator
                     = (Ok element, match locator with
                                    | inl selector => [CallLocator selector]
                                    | inr _ => []
                                    end)).
  { destruct locator as [selector | l]; simpl in *.
    - unfold call. now rewrite Hresolves.
    - unfold ret. now subst l. }
  split; [| split].
  - intros content Hcontent. unfold get_text, result, bind, call, ret.
    rewrite Helement, Hcontent. simpl.
    destruct content as [[| c rest] |]; reflexivity.
  - intros e He. unfold get_text, result, bind, call, ret.
    rewrite Helement, He. reflexivity.
  - intros selector e He. unfold get_text, result, bind, call, ret, element_of.
    rewrite He. reflexivity.
Qed.

(** On the page where [.temp] reads 21 and nothing else has text, [get_text]
    gives "21" for [.temp] and the empty string for [h1]. *)
Lemma get_text_returns_string_witness :
  result (get_text Observe.on_temp_page (inl ".temp")) = Ok (Some "21")
  /\ result (get_text Observe.on_temp_page (inr (First (Loc "h1")))) = Ok (Some "").
Proof.
  split.
  - exact (proj1 (get_text_returns_string
                    Observe.on_temp_page (inl ".temp") (Loc ".temp") eq_refl)
                 (Some "21") eq_refl).
  - exact (proj1 (get_text_returns_string
                    Observe.on_temp_page (inr (First (Loc "h1")))
                    (First (Loc "h1")) eq_refl)
                 None eq_refl).
Defined.

(** C9 as stated fails: on a page where reading the text times out,
    [get_text] returns no string, it raises. *)
Lemma get_text_raises_when_text_unreadable :
  result (get_text on_unreadable_page (inl "h1"))
  = Raise "TimeoutError: text_content"
  /\ ~ (exists s, result (get_text on_unreadable_page (inl "h1")) = Ok (Some s)).
Proof.
  split; [reflexivity |].
  intros [s Hs]. discriminate Hs.
Qed.

End GetText.

(* ------------------------------------------------------------------------- *)
(** ** Selector resolution in WeatherPage *)

Section Resolution.

Import BasePage WeatherPage Observe.

Lemma candidates_app (t1 t2 : list Event) :
  candidates (t1 ++ t2) = (candidates t1 ++ candidates t2)%list.
Proof. unfold candidates. apply flat_map_app. Qed.

Lemma timeouts_app (t1 t2 : list Event) :
  timeouts (t1 ++ t2) = (timeouts t1 ++ timeouts t2)%list.
Proof. unfold timeouts. apply flat_map_app. Qed.

(** One iteration of the check loop, by what the page answers. *)
Lemma any_visible_cons (self : t) (timeout : Z) (selector : string)
    (rest : list string) :
  any_visible self timeout (selector :: rest) =
  match locator (page self) selector with
  | Raise _ =>
      after_calls [CallLocator selector] (any_visible self timeout rest)
  | Ok l =>
      match is_visible (page self) (First l) timeout with
      | Ok true =>
          (Ok true, [CallLocator selector; CallIsVisible (First l) timeout])
      | Ok false | Raise _ =>
          after_calls [CallLocator selector; CallIsVisible (First l) timeout]
                      (any_visible self timeout rest)
      end
  end.
Proof.
  simpl. unfold try_visible, locator_first, visible, call, catch, bind, ret,
    after_calls. simpl.
  destruct (locator (page self) selector) as [l | e]; simpl.
  - destruct (is_visible (page self) (First l) timeout) as [[|] | e]; simpl;
      try reflexivity;
      destruct (any_visible self timeout rest) as [r tr]; reflexivity.
  - destruct (any_visible self timeout rest) as [r tr]; reflexivity.
Qed.

(** One iteration of the getter loop, by what the page answers. *)
Lemma first_visible_text_cons (self : t) (timeout : Z) (selector : string)
    (rest : list string) :
  first_visible_text self timeout (selector :: rest) =
  match locator (page self) selector with
  | Raise _ =>
      after_calls [CallLocator selector] (first_visible_text self timeout rest)
  | Ok l =>
      match is_visible (page self) (First l) timeout with
      | Ok true =>
          match text_content (page self) (First l) with
          | Ok content =>
              (Ok content, [CallLocator selector;
                            CallIsVisible (First l) timeout;
                            CallTextContent (First l)])
          | Raise _ =>
              after_calls [CallLocator selector;
                           CallIsVisible (First l) timeout;
                           CallTextContent (First l)]
                          (first_visible_text self timeout rest)
          end
      | Ok false | Raise _ =>
          after_calls [CallLocator selector; CallIsVisible (First l) timeout]
                      (first_visible_text self timeout rest)
      end
  end.
Proof.
  simpl. unfold try_text, locator_first, visible, call, catch, bind, ret,
    after_calls. simpl.
  destruct (locator (page self) selector) as [l | e]; simpl.
  - destruct (is_visible (page self) (First l) timeout) as [[|] | e]; simpl.
    + destruct (text_content (page self) (First l)) as [content | e]; simpl;
        try reflexivity;
        destruct (first_visible_text self timeout rest) as [r tr]; reflexivity.
    + destruct (first_visible_text self timeout rest) as [r tr]; reflexivity.
    + destruct (first_visible_text self timeout rest) as [r tr]; reflexivity.
  - destruct (first_visible_text self timeout rest) as [r tr]; reflexivity.
Qed.

(** A candidate that does not show costs one locator call and the loop goes
    on with the rest. *)
Lemma any_visible_skip (self : t) (timeout : Z) (selector : string)
    (rest : list string) :
  shows self timeout selector = false ->
  result (any_visible self timeout (selector :: rest))
  = result (any_visible self timeout rest)
  /\ candidates (trace (any_visible self timeout (selector :: rest)))
     = selector :: candidates (trace (any_visible self timeout rest)).
Proof.
  unfold shows. intros H. rewrite any_visible_cons.
  destruct (locator (page self) selector) as [l | e].
  - destruct (is_visible (page self) (First l) timeout) as [[|] | e];
      [discriminate | |]; split; reflexivity.
  - split; reflexivity.
Qed.

Lemma first_visible_text_skip (self : t) (timeout : Z) (selector : string)
    (rest : list string) :
  shows self timeout selector = false ->
  result (first_visible_text self timeout (selector :: rest))
  = result (first_visible_text self timeout rest)
  /\ candidates (trace (first_visible_text self timeout (selector :: rest)))
     = selector :: candidates (trace (first_visible_text self timeout rest)).
Proof.
  unfold shows. intros H. rewrite first_visible_text_cons.
  destruct (locator (page self) selector) as [l | e].
  - destruct (is_visible (page self) (First l) timeout) as [[|] | e];
      [discriminate | |]; split; reflexivity.
  - split; reflexivity.
Qed.

Lemma any_visible_skip_prefix (self : t) (timeout : Z) (before rest : list string) :
  existsb (shows self timeout) before = false ->
  result (any_visible self timeout (before ++ rest))
  = result (any_visible self timeout rest)
  /\ candidates (trace (any_visible self timeout (before ++ rest)))
     = (before ++ candidates (trace (any_visible self timeout rest)))%list.
Proof.
  induction before as [| s before IH]; intros H.
  - split; reflexivity.
  - simpl in H. apply orb_false_iff in H. destruct H as [Hs Hbefore].
    destruct (IH Hbefore) as [IHr IHc].
    destruct (any_visible_skip self timeout s (before ++ rest) Hs) as [Hr Hc].
    change ((s :: before) ++ rest)%list with (s :: (before ++ rest))%list.
    rewrite Hr, Hc, IHr, IHc. split; reflexivity.
Qed.

Lemma first_visible_text_skip_prefix (self : t) (timeout : Z)
    (before rest : list string) :
  existsb (shows self timeout) before = false ->
  result (first_visible_text self timeout (before ++ rest))
  = result (first_visible_text self timeout rest)
  /\ candidates (trace (first_visible_text self timeout (before ++ rest)))
     = (before ++ candidates (trace (first_visible_text self timeout rest)))%list.
Proof.
  induction before as [| s before IH]; intros H.
  - split; reflexivity.
  - simpl in H. apply orb_false_iff in H. destruct H as [Hs Hbefore].
    destruct (IH Hbefore) as [IHr IHc].
    destruct (first_visible_text_skip self timeout s (before ++ rest) Hs)
      as [Hr Hc].
    change ((s :: before) ++ rest)%list with (s :: (before ++ rest))%list.
    rewrite Hr, Hc, IHr, IHc. split; reflexivity.
Qed.

(** The loops cannot raise, whatever the page does. *)
Lemma any_visible_never_raises (self : t) (timeout : Z) (selectors : list string) :
  exists b, result (any_visible self timeout selectors) = Ok b.
Proof.
  induction selectors as [| s rest [b IH]].
  - exists false. reflexivity.
  - rewrite any_visible_cons.
    destruct (locator (page self) s) as [l | e].
    + destruct (is_visible (page self) (First l) timeout) as [[|] | e];
        [exists true; reflexivity | exists b; exact IH | exists b; exact IH].
    + exists b. exact IH.
Qed.

Lemma first_visible_text_never_raises (self : t) (timeout : Z)
    (selectors : list string) :
  exists v, result (first_visible_text self timeout selectors) = Ok v.
Proof.
  induction selectors as [| s rest [v IH]].
  - exists None. reflexivity.
  - rewrite first_visible_text_cons.
    destruct (locator (page self) s) as [l | e].
    + destruct (is_visible (page self) (First l) timeout) as [[|] | e].
      * destruct (text_content (page self) (First l)) as [content | e];
          [exists content; reflexivity | exists v; exact IH].
      * exists v. exact IH.
      * exists v. exact IH.
    + exists v. exact IH.
Qed.

(** C1 (as amended).  Let the candidates before [selector] not show and let
    [selector] resolve to a visible element.  The two checks
    ([is_weather_info_displayed], [is_error_displayed]) then return [True]
    and try no candidate after [selector].  The getters ([get_temperature],
    [get_city_name], [get_weather_description]) return the text of that
    element and try no later candidate provided reading the text does not
    raise; when it raises, the error is suppressed like any other and the
    loop goes on with the candidates after [selector]. *)
Theorem first_visible_candidate_wins (self : t) (timeout : Z)
    (before : list string) (selector : string) (later : list string)
    (l : Locator) :
  existsb (shows self timeout) before = false ->
  locator (page self) selector = Ok l ->
  is_visible (page self) (First l) timeout = Ok true ->
  (result (any_visible self timeout (before ++ selector :: later)) = Ok true
   /\ candidates (trace (any_visible self timeout (before ++ selector :: later)))
      = (before ++ [selector])%list)
  /\ match text_content (page self) (First l) with
     | Ok content =>
         result (first_visible_text self timeout (before ++ selector :: later))
         = Ok content
         /\ candidates
              (trace (first_visible_text self timeout (before ++ selector :: later)))
            = (before ++ [selector])%list
     | Raise _ =>
         result (first_visible_text self timeout (before ++ selector :: later))
         = result (first_visible_text self timeout later)
         /\ candidates
              (trace (first_visible_text self timeout (before ++ selector :: later)))
            = (before ++ selector
                 :: candidates (trace (first_visible_text self timeout later)))%list
     end.
Proof.
  intros Hbefore Hloc Hvis.
  destruct (any_visible_skip_prefix self timeout before (selector :: later) Hbefore)
    as [Hr Hc].
  destruct (first_visible_text_skip_prefix self timeout before (selector :: later)
              Hbefore) as [Hr' Hc'].
  split.
  - rewrite Hr, Hc, any_visible_cons, Hloc, Hvis. split; reflexivity.
  - rewrite Hr', Hc', first_visible_text_cons, Hloc, Hvis.
    destruct (text_content (page self) (First l)) as [content | e];
      split; reflexivity.
Qed.

(** On a page where only [.temp] is visible, [get_temperature] skips its first
    two candidates, returns the text of [.temp] and never tries the fourth. *)
Lemma first_visible_candidate_wins_witness :
  result (get_temperature on_temp_page) = Ok (Some "21")
  /\ candidates (trace (get_temperature on_temp_page))
     = [ TEMPERATURE; ".temperature"; ".temp" ].
Proof.
  exact (proj2 (first_visible_candidate_wins
                  on_temp_page 5000 [ TEMPERATURE; ".temperature" ] ".temp"
                  [ "[class*='temperature']" ] (Loc ".temp")
                  eq_refl eq_refl eq_refl)).
Defined.

(** C1 as stated fails for the getters: on a page whose first temperature
    candidate is visible when checked but whose text cannot be read,
    [get_temperature] goes on to the second candidate and returns its text. *)
Lemma visible_candidate_not_returned :
  shows on_rerendering_page 5000 TEMPERATURE = true
  /\ nth_error temperature_selectors 0 = Some TEMPERATURE
  /\ candidates (trace (get_temperature on_rerendering_page))
     = [ TEMPERATURE; ".temperature" ]
  /\ result (get_temperature on_rerendering_page) = Ok (Some "21")
  /\ text_content (page on_rerendering_page) (First (Loc TEMPERATURE))
     = Raise "TimeoutError: text_content".
Proof. repeat split. Qed.

(** C2.  When no candidate of the list shows, because the locator call
    raised, the visibility check raised (a malformed selector, a timeout) or
    it answered [False], the getters return [None] and the checks return
    [False], after trying every candidate in order; nothing is raised.  This
    includes the empty list.  [get_error_message] returns [None] under the
    same condition on its own candidates. *)
Theorem no_visible_candidate_is_absent (self : t) (timeout : Z)
    (selectors : list string) :
  existsb (shows self timeout) selectors = false ->
  (result (first_visible_text self timeout selectors) = Ok None
   /\ candidates (trace (first_visible_text self timeout selectors)) = selectors)
  /\ (result (any_visible self timeout selectors) = Ok false
      /\ candidates (trace (any_visible self timeout selectors)) = selectors)
  /\ (existsb (shows self 5000) error_selectors = false ->
      result (get_error_message self) = Ok None).
Proof.
  intros Hnone.
  destruct (first_visible_text_skip_prefix self timeout selectors [] Hnone)
    as [Hr Hc].
  destruct (any_visible_skip_prefix self timeout selectors [] Hnone) as [Hr' Hc'].
  rewrite app_nil_r in Hr, Hc, Hr', Hc'. simpl in Hc, Hc'.
  rewrite app_nil_r in Hc, Hc'.
  repeat split; try assumption.
  intros Herr.
  destruct (any_visible_skip_prefix self 5000 error_selectors [] Herr) as [He _].
  rewrite app_nil_r in He.
  unfold get_error_message, is_error_displayed, result in *.
  destruct (any_visible self 5000 error_selectors) as [r tr].
  simpl in He. subst r. reflexivity.
Qed.

Lemma no_visible_candidate_is_absent_witness :
  (result (get_temperature on_blank_page) = Ok None
   /\ candidates (trace (get_temperature on_blank_page)) = temperature_selectors)
  /\ (result (is_error_displayed on_malformed_page) = Ok false
      /\ candidates (trace (is_error_displayed on_malformed_page)) = error_selectors)
  /\ result (get_error_message on_malformed_page) = Ok None
  /\ result (first_visible_text on_blank_page 5000 []) = Ok None.
Proof.
  split; [| split; [| split]].
  - exact (proj1 (no_visible_candidate_is_absent
                    on_blank_page 5000 temperature_selectors eq_refl)).
  - exact (proj1 (proj2 (no_visible_candidate_is_absent
                           on_malformed_page 5000 error_selectors eq_refl))).
  - exact (proj2 (proj2 (no_visible_candidate_is_absent
                           on_malformed_page 5000 error_selectors eq_refl))
                 eq_refl).
  - exact (proj1 (proj1 (no_visible_candidate_is_absent
                           on_blank_page 5000 [] eq_refl))).
Defined.

(** One iteration of the loop of [search_for_city], by what the page
    answers; the third argument is the value of [search_input] on entry. *)
Lemma search_input_loop_cons (self : t) (selector : string) (rest : list string)
    (search_input : option Locator) :
  search_input_loop self (selector :: rest) search_input =
  match locator (page self) selector with
  | Raise _ =>
      after_calls [CallLocator selector] (search_input_loop self rest search_input)
  | Ok l =>
      match is_visible (page self) (First l) 5000 with
      | Ok true =>
          (Ok (Some (First l)),
           [CallLocator selector; CallIsVisible (First l) 5000%Z])
      | Ok false | Raise _ =>
          after_calls [CallLocator selector; CallIsVisible (First l) 5000%Z]
                      (search_input_loop self rest (Some (First l)))
      end
  end.
Proof.
  simpl. unfold locator_first, visible, call, catch, bind, ret, after_calls.
  simpl.
  destruct (locator (page self) selector) as [l | e]; simpl.
  - destruct (is_visible (page self) (First l) 5000) as [[|] | e]; simpl;
      try reflexivity;
      destruct (search_input_loop self rest (Some (First l))) as [r tr];
      reflexivity.
  - destruct (search_input_loop self rest search_input) as [r tr]; reflexivity.
Qed.

Lemma timeouts_bind {A B} (P : Z -> Prop) (m : M A) (k : A -> M B) :
  Forall P (timeouts (trace m)) ->
  (forall a, Forall P (timeouts (trace (k a)))) ->
  Forall P (timeouts (trace (bind m k))).
Proof.
  intros Hm Hk. destruct m as [[a | e] tr]; simpl in *.
  - specialize (Hk a). destruct (k a) as [r tr']. simpl in *.
    rewrite timeouts_app. apply Forall_app. split; assumption.
  - exact Hm.
Qed.

Lemma timeouts_any_visible (self : t) (timeout : Z) (selectors : list string) :
  Forall (eq timeout) (timeouts (trace (any_visible self timeout selectors))).
Proof.
  induction selectors as [| s rest IH].
  - constructor.
  - rewrite any_visible_cons.
    destruct (locator (page self) s) as [l | e].
    + destruct (is_visible (page self) (First l) timeout) as [[|] | e]; simpl;
        repeat constructor; exact IH.
    + exact IH.
Qed.

Lemma timeouts_first_visible_text (self : t) (timeout : Z)
    (selectors : list string) :
  Forall (eq timeout)
         (timeouts (trace (first_visible_text self timeout selectors))).
Proof.
  induction selectors as [| s rest IH].
  - constructor.
  - rewrite first_visible_text_cons.
    destruct (locator (page self) s) as [l | e].
    + destruct (is_visible (page self) (First l) timeout) as [[|] | e]; simpl.
      * destruct (text_content (page self) (First l)) as [content | e]; simpl;
          repeat constructor; exact IH.
      * repeat constructor; exact IH.
      * repeat constructor; exact IH.
    + exact IH.
Qed.

Lemma timeouts_search_input_loop (self : t) (selectors : list string)
    (search_input : option Locator) :
  Forall (eq 5000%Z)
         (timeouts (trace (search_input_loop self selectors search_input))).
Proof.
  revert search_input. induction selectors as [| s rest IH]; intros search_input.
  - constructor.
  - rewrite search_input_loop_cons.
    destruct (locator (page self) s) as [l | e].
    + destruct (is_visible (page self) (First l) 5000) as [[|] | e]; simpl;
        repeat constructor; apply IH.
    + apply IH.
Qed.

(** C6 (as amended).  Every visibility check made by [search_for_city],
    [get_temperature], [get_city_name], [get_weather_description],
    [is_error_displayed] and [get_error_message] passes a timeout of 5000 ms;
    every visibility check made by [is_weather_info_displayed] passes
    10000 ms. *)
Theorem visibility_timeouts (self : t) (city_name : string) :
  Forall (eq 5000%Z) (timeouts (trace (search_for_city self city_name)))
  /\ Forall (eq 5000%Z) (timeouts (trace (get_temperature self)))
  /\ Forall (eq 5000%Z) (timeouts (trace (get_city_name self)))
  /\ Forall (eq 5000%Z) (timeouts (trace (get_weather_description self)))
  /\ Forall (eq 5000%Z) (timeouts (trace (is_error_displayed self)))
  /\ Forall (eq 5000%Z) (timeouts (trace (get_error_message self)))
  /\ Forall (eq 10000%Z) (timeouts (trace (is_weather_info_displayed self))).
Proof.
  repeat split;
    try apply timeouts_first_visible_text; try apply timeouts_any_visible.
  - unfold search_for_city.
    apply timeouts_bind; [apply timeouts_search_input_loop |].
    intros [element |]; apply timeouts_bind; try (intros; simpl; constructor).
    apply timeouts_bind; intros; simpl; constructor.
  - unfold get_error_message.
    apply timeouts_bind; [apply timeouts_any_visible |].
    intros [|]; [apply timeouts_first_visible_text | constructor].
Qed.

(** C6 as stated fails: the visibility checks of the weather-info container
    wait 10000 ms each, not 5000 ms. *)
Lemma weather_info_timeout_is_not_default :
  timeouts (trace (is_weather_info_displayed on_blank_page))
  = [ 10000%Z; 10000%Z; 10000%Z; 10000%Z ]
  /\ ~ Forall (eq 5000%Z)
         (timeouts (trace (is_weather_info_displayed on_blank_page))).
Proof.
  split; [reflexivity |].
  intros H. inversion H as [| x xs Hx _]. discriminate Hx.
Qed.

Lemma navigations_app (t1 t2 : list Event) :
  navigations (t1 ++ t2) = (navigations t1 ++ navigations t2)%list.
Proof. unfold navigations. apply flat_map_app. Qed.

(** The loop itself never navigates. *)
Lemma search_input_loop_navigations (self : t) (selectors : list string)
    (search_input : option Locator) :
  navigations (trace (search_input_loop self selectors search_input)) = [].
Proof.
  revert search_input. induction selectors as [| s rest IH]; intros search_input.
  - reflexivity.
  - rewrite search_input_loop_cons.
    destruct (locator (page self) s) as [l | e].
    + destruct (is_visible (page self) (First l) 5000) as [[|] | e]; simpl;
        try reflexivity; apply IH.
    + apply IH.
Qed.

(** As soon as one locator has been built the variable is bound, visible
    element or not. *)
Lemma search_input_loop_bound (self : t) (selectors : list string)
    (search_input : option Locator) :
  (forall s, In s selectors -> is_ok (locator (page self) s) = true) ->
  selectors <> [] \/ search_input <> None ->
  exists element,
    result (search_input_loop self selectors search_input) = Ok (Some element).
Proof.
  revert search_input.
  induction selectors as [| s rest IH]; intros search_input Hloc Hbound.
  - destruct Hbound as [H | H]; [congruence |].
    destruct search_input as [element |]; [| congruence].
    exists element. reflexivity.
  - rewrite search_input_loop_cons.
    pose proof (Hloc s (or_introl eq_refl)) as Hs.
    destruct (locator (page self) s) as [l | e]; [| discriminate].
    assert (Hrest : exists element,
               result (search_input_loop self rest (Some (First l)))
               = Ok (Some element)).
    { apply IH; [intros s' Hin; apply Hloc; now right | right; discriminate]. }
    destruct (is_visible (page self) (First l) 5000) as [[|] | e];
      [exists (First l); reflexivity | exact Hrest | exact Hrest].
Qed.

(** On any page where building a locator does not raise, [search_for_city]
    never navigates: the URL branch cannot be reached. *)
Lemma search_for_city_never_navigates (self : t) (city_name : string) :
  (forall s, In s search_selectors -> is_ok (locator (page self) s) = true) ->
  navigations (trace (search_for_city self city_name)) = [].
Proof.
  intros Hloc.
  destruct (search_input_loop_bound self search_selectors None Hloc)
    as [element Helement]; [left; discriminate |].
  pose proof (search_input_loop_navigations self search_selectors None) as Hnav.
  unfold search_for_city, result, trace in *.
  destruct (search_input_loop self search_selectors None) as [r tr].
  simpl in Helement, Hnav. subst r.
  unfold bind, call, wait_for_page_load. simpl.
  destruct (fill (page self) element city_name) as [[] | e]; simpl.
  - destruct (press (page self) element "Enter") as [[] | e]; simpl;
      rewrite navigations_app, Hnav; reflexivity.
  - rewrite navigations_app, Hnav. reflexivity.
Qed.

(** When a candidate is visible, that input is filled with the city name and
    Enter is pressed on it. *)
Lemma search_for_city_fills_visible_input (self : t) (city_name : string)
    (l : Locator) :
  locator (page self) SEARCH_INPUT = Ok l ->
  is_visible (page self) (First l) 5000 = Ok true ->
  fill (page self) (First l) city_name = Ok tt ->
  press (page self) (First l) "Enter" = Ok tt ->
  trace (search_for_city self city_name)
  = [ CallLocator SEARCH_INPUT;
      CallIsVisible (First l) 5000;
      CallFill (First l) city_name;
      CallPress (First l) "Enter";
      CallWaitForLoadState "networkidle" ].
Proof.
  intros Hloc Hvis Hfill Hpress.
  unfold search_for_city, search_selectors.
  rewrite search_input_loop_cons, Hloc, Hvis.
  unfold bind, call, wait_for_page_load, trace. simpl.
  rewrite Hfill, Hpress. reflexivity.
Qed.

(** C3 at a page without any visible search input: all four candidates are
    checked and none is visible, yet the method fills the last candidate and
    presses Enter on it; it never navigates to the search URL. *)
Theorem search_for_city_skips_url_fallback :
  existsb (shows on_blank_page 5000) search_selectors = false
  /\ navigations (trace (search_for_city on_blank_page "London")) = []
  /\ trace (search_for_city on_blank_page "London")
     = [ CallLocator SEARCH_INPUT;
         CallIsVisible (First (Loc SEARCH_INPUT)) 5000;
         CallLocator "input[name='q']";
         CallIsVisible (First (Loc "input[name='q']")) 5000;
         CallLocator "input[id*='search']";
         CallIsVisible (First (Loc "input[id*='search']")) 5000;
         CallLocator "input[placeholder*='Search']";
         CallIsVisible (First (Loc "input[placeholder*='Search']")) 5000;
         CallFill (First (Loc "input[placeholder*='Search']")) "London";
         CallPress (First (Loc "input[placeholder*='Search']")) "Enter";
         CallWaitForLoadState "networkidle" ].
Proof. repeat split. Qed.

End Resolution.

(* ------------------------------------------------------------------------- *)
(** ** Tests that need the API key *)

Section ApiKey.

Import Config Tests Observe.

(** C7 at an environment that does not define the key: [get_settings] raises
    the validation error of the required field and the test ends in error
    before its skip branch; the skip branch is reached when the key is
    defined and empty. *)
Theorem api_key_prelude_errors_without_key :
  env_openweather_api_key no_environ = None
  /\ fst (api_key_prelude no_environ fresh)
     = Errored "ValidationError: openweather_api_key: Field required"
  /\ fst (api_key_prelude (environ_with_key "") fresh)
     = Skipped "OpenWeatherMap API key not provided".
Proof. repeat split. Qed.

End ApiKey.

(* ------------------------------------------------------------------------- *)
(** ** Query parameters of the wrappers *)

Section Params.

Import WeatherAPIClient Calls Observe2.










(** X2.  When the GET of an accepted call answers with a response that is
    not [ok] and whose text can be read, the wrapper returns an envelope
    whose data is that raw text, and both validators answer [False] on that
    data without raising: a caller that validates before looking at the
    status gets a plain rejection. *)
Theorem validators_reject_error_envelopes (base key : string) (op : Operation) :
  accepted op = true ->
  exists url params,
    forall (ctx : APIRequestContext) (response : APIResponse) (raw : string),
      http_get ctx url params = Ok response ->
      ok response = false ->
      text response = Ok raw ->
      exists d,
        perform (client base key ctx) op = Ok (PDict d)
        /\ get "data" d = Some (PStr raw)
        /\ (forall data,
               get "data" d = Some data ->
               validate_weather_response data = Ok false
               /\ validate_forecast_response data = Ok false).
Proof.
  intros Haccepted.
  destruct (perform_reply base key op Haccepted) as [url [params Hreply]].
  exists url, params. intros ctx response raw Hget Hok Htext.
  unfold client. rewrite (Hreply ctx), Hget. unfold reply. rewrite Hok, Htext.
  eexists. split; [reflexivity |]. split; [reflexivity |].
  intros data Hdata. simpl in Hdata. injection Hdata as Hdata. subst data.
  split; reflexivity.
Qed.

Lemma validators_reject_error_envelopes_witness :
  exists d,
    perform (client "https://api.openweathermap.org/data/2.5" "0123456789abcdef"
                    (always_404 "city not found"))
            (CurrentWeather "Atlantis" [])
    = Ok (PDict d)
    /\ get "data" d = Some (PStr "city not found")
    /\ (forall data,
           get "data" d = Some data ->
           validate_weather_response data = Ok false
           /\ validate_forecast_response data = Ok false).
Proof.
  destruct (validators_reject_error_envelopes
              "https://api.openweathermap.org/data/2.5" "0123456789abcdef"
              (CurrentWeather "Atlantis" []) eq_refl) as [url [params H]].
  exact (H (always_404 "city not found")
           {| status := 404;
              headers := [ ("content-type", "application/json") ];
              ok := false;
              json := Ok (PDict [ ("cod", PStr "404");
                                  ("message", PStr "city not found") ]);
              text := Ok "city not found" |}
           "city not found" eq_refl eq_refl eq_refl).
Defined.

End Params.

(* ------------------------------------------------------------------------- *)
(** ** src/utils/helpers.py *)

Section HelperProperties.

Import Helpers Observe2.

(** X3.  On a mapping, [validate_response_schema] answers [True] exactly when
    every required field is a key, and given the client's field lists it
    agrees with the client's two validators. *)
Theorem schema_helper_on_mappings (kvs : dict) (required_fields : list string) :
  (validate_response_schema (PDict kvs) required_fields = Ok true
   <-> (forall field, In field required_fields -> In field (keys kvs)))
  /\ (validate_response_schema (PDict kvs) required_fields = Ok true
      \/ validate_response_schema (PDict kvs) required_fields = Ok false)
  /\ validate_response_schema (PDict kvs) WeatherAPIClient.weather_required_fields
     = WeatherAPIClient.validate_weather_response (PDict kvs)
  /\ validate_response_schema (PDict kvs) WeatherAPIClient.forecast_required_fields
     = WeatherAPIClient.validate_forecast_response (PDict kvs).
Proof.
  split; [| split; [| split; reflexivity]].
  - exact (validate_dict_true required_fields kvs).
  - exact (validate_dict_total required_fields kvs).
Qed.

(** X4.  [validate_response_schema] has no type guard: on [None], a boolean
    or a number it raises [TypeError] as soon as one field is required, and
    with no required field it answers [True] for every value. *)
Theorem schema_helper_is_unguarded (response_data : value)
    (field : string) (others : list string) :
  validate_response_schema response_data [] = Ok true
  /\ (is_scalar response_data = true ->
      validate_response_schema response_data (field :: others)
      = Raise "TypeError: argument is not iterable").
Proof.
  split; [reflexivity |].
  intros Hscalar. unfold validate_response_schema. simpl.
  destruct response_data; try discriminate Hscalar; reflexivity.
Qed.

Lemma schema_helper_is_unguarded_witness :
  validate_response_schema PNone [ "cod"; "message" ]
  = Raise "TypeError: argument is not iterable".
Proof.
  exact (proj2 (schema_helper_is_unguarded PNone "cod" [ "message" ]) eq_refl).
Defined.

Lemma is_substring_occurs (needle haystack : string) :
  is_substring needle haystack = true
  <-> exists m, substring m (String.length needle) haystack = needle.
Proof.
  unfold is_substring.
  destruct (index 0 needle haystack) as [m |] eqn:Hindex; split.
  - intros _. exists m. exact (index_correct1 0 m needle haystack Hindex).
  - reflexivity.
  - discriminate.
  - intros [m Hm]. exfalso.
    destruct needle as [| c rest].
    + apply index_correct4 in Hindex. lia.
    + refine (index_correct3 0 m _ haystack Hindex _ _ Hm);
        [discriminate | lia].
Qed.

(** X5.  On a string, [validate_response_schema] answers [True] exactly when
    every required field occurs somewhere in the text: raw response text that
    merely mentions the field names is accepted. *)
Theorem schema_helper_on_text (raw : string) (required_fields : list string) :
  validate_response_schema (PStr raw) required_fields = Ok true
  <-> (forall field,
          In field required_fields ->
          exists m, substring m (String.length field) raw = field).
Proof.
  unfold validate_response_schema.
  induction required_fields as [| f fs IH]; simpl.
  - split; [intros _ field [] | reflexivity].
  - destruct (is_substring f raw) eqn:Hf.
    + rewrite IH. split.
      * intros H field [Heq | Hin]; [subst; now apply is_substring_occurs | now apply H].
      * intros H field Hin. apply H. now right.
    + split; [discriminate |].
      intros H. exfalso.
      assert (Hocc : is_substring f raw = true)
        by (apply is_substring_occurs; apply H; now left).
      congruence.
Qed.

Lemma string_forall_get (p : ascii -> bool) (s : string) (n : nat) :
  string_forall p s = true ->
  (n < String.length s)%nat ->
  exists c, String.get n s = Some c /\ p c = true.
Proof.
  revert n. induction s as [| c rest IH]; simpl; intros n Hall Hlt.
  - lia.
  - apply andb_true_iff in Hall. destruct Hall as [Hc Hrest].
    destruct n as [| n].
    + exists c. split; [reflexivity | exact Hc].
    + apply IH; [exact Hrest | lia].
Qed.

Lemma join_choices_from (p : ascii -> bool) (rng : Random) (letters : string)
    (k n : nat) :
  string_forall p letters = true ->
  letters <> EmptyString ->
  exists s,
    join_choices rng letters k n = Ok s
    /\ String.length s = n
    /\ string_forall p s = true.
Proof.
  intros Hall Hne. revert k.
  induction n as [| n IH]; intros k; simpl.
  - exists EmptyString. repeat split.
  - assert (Hlt : (rng k mod String.length letters < String.length letters)%nat).
    { apply Nat.mod_upper_bound. destruct letters; [congruence | discriminate]. }
    destruct (string_forall_get p letters _ Hall Hlt) as [c [Hget Hc]].
    unfold choice. rewrite Hget.
    destruct (IH (S k)) as [rest [Hrest [Hlen Hp]]].
    rewrite Hrest. exists (String c rest). simpl.
    rewrite Hlen, Hc, Hp. repeat split.
Qed.

Lemma random_string_shape_aux (rng : Random) :
  exists s,
    generate_random_string rng 12 = Ok s
    /\ String.length s = 12%nat
    /\ string_forall alphanumeric s = true.
Proof.
  unfold generate_random_string.
  apply (join_choices_from alphanumeric rng _ 0 12); [reflexivity | discriminate].
Qed.

(** X6.  [generate_random_string] never raises; whatever the random source,
    the string has exactly [length] characters (none when [length] is zero or
    negative) and each of them is an ASCII letter or digit. *)
Theorem random_string_shape (rng : Random) (length : Z) :
  exists s,
    generate_random_string rng length = Ok s
    /\ String.length s = Z.to_nat length
    /\ string_forall alphanumeric s = true.
Proof.
  unfold generate_random_string.
  apply join_choices_from; [reflexivity | discriminate].
Qed.

(** X7.  [generate_test_data] never raises and returns the eleven fields
    email, first_name, last_name, username, password, phone, address, city,
    country, company, text, in that order; the password is a string of twelve
    ASCII letters or digits. *)
Theorem test_data_shape (fake : Faker) (rng : Random) :
  exists d password,
    generate_test_data fake rng = Ok d
    /\ keys d = [ "email"; "first_name"; "last_name"; "username"; "password";
                  "phone"; "address"; "city"; "country"; "company"; "text" ]
    /\ get "password" d = Some (PStr password)
    /\ String.length password = 12%nat
    /\ string_forall alphanumeric password = true.
Proof.
  destruct (random_string_shape_aux rng) as [password [Hgen [Hlen Hall]]].
  unfold generate_test_data. rewrite Hgen.
  eexists. exists password. repeat split; assumption.
Qed.

End HelperProperties.

(* ------------------------------------------------------------------------- *)
(** ** wait_for_condition *)

Section Waiting.

Import Helpers Observe2.

Lemma wait_loop_returns (w : Waiting) (timeout interval : float)
    (error_message : string) (n j fuel : nat) :
  (forall i, (i < n)%nat -> condition w (j + i) = Ok false) ->
  (forall i, (i < n)%nat -> timed_out w timeout (j + i) = false) ->
  condition w (j + n) = Ok true ->
  (n < fuel)%nat ->
  wait_loop fuel w timeout interval error_message (loop_time w 0) j
  = Some (Ok tt, repeat interval n).
Proof.
  revert j fuel. induction n as [| n IH]; intros j fuel Hfalse Hearly Htrue Hfuel.
  - destruct fuel as [| fuel]; [lia |]. simpl.
    rewrite Nat.add_0_r in Htrue. now rewrite Htrue.
  - destruct fuel as [| fuel]; [lia |]. simpl.
    pose proof (Hfalse 0%nat ltac:(lia)) as H0.
    pose proof (Hearly 0%nat ltac:(lia)) as T0.
    rewrite Nat.add_0_r in H0, T0. unfold timed_out in T0.
    rewrite H0, T0.
    rewrite (IH (S j) fuel); [reflexivity | | | | lia].
    + intros i Hi. replace (S j + i)%nat with (j + S i)%nat by lia.
      apply Hfalse. lia.
    + intros i Hi. replace (S j + i)%nat with (j + S i)%nat by lia.
      apply Hearly. lia.
    + replace (S j + n)%nat with (j + S n)%nat by lia. exact Htrue.
Qed.

Lemma wait_loop_times_out (w : Waiting) (timeout interval : float)
    (error_message : string) (n j fuel : nat) :
  (forall i, (i <= n)%nat -> condition w (j + i) = Ok false) ->
  (forall i, (i < n)%nat -> timed_out w timeout (j + i) = false) ->
  timed_out w timeout (j + n) = true ->
  (n < fuel)%nat ->
  wait_loop fuel w timeout interval error_message (loop_time w 0) j
  = Some (Raise ("TimeoutError: " ++ error_message)%string, repeat interval n).
Proof.
  revert j fuel. induction n as [| n IH]; intros j fuel Hfalse Hearly Hlate Hfuel.
  - destruct fuel as [| fuel]; [lia |]. simpl.
    pose proof (Hfalse 0%nat ltac:(lia)) as H0.
    rewrite Nat.add_0_r in H0, Hlate. unfold timed_out in Hlate.
    now rewrite H0, Hlate.
  - destruct fuel as [| fuel]; [lia |]. simpl.
    pose proof (Hfalse 0%nat ltac:(lia)) as H0.
    pose proof (Hearly 0%nat ltac:(lia)) as T0.
    rewrite Nat.add_0_r in H0, T0. unfold timed_out in T0.
    rewrite H0, T0.
    rewrite (IH (S j) fuel); [reflexivity | | | | lia].
    + intros i Hi. replace (S j + i)%nat with (j + S i)%nat by lia.
      apply Hfalse. lia.
    + intros i Hi. replace (S j + i)%nat with (j + S i)%nat by lia.
      apply Hearly. lia.
    + replace (S j + n)%nat with (j + S n)%nat by lia. exact Hlate.
Qed.

(** X8.  If the condition fails at its first [k] calls without the deadline
    having passed after any of them, and holds at the next call, then
    [wait_for_condition] returns normally after sleeping [interval] exactly
    [k] times.  With [k = 0] it returns at once, whatever the timeout. *)
Theorem wait_returns_when_condition_holds (w : Waiting)
    (timeout interval : float) (error_message : string) (k fuel : nat) :
  (forall i, (i < k)%nat -> condition w i = Ok false) ->
  (forall i, (i < k)%nat -> timed_out w timeout i = false) ->
  condition w k = Ok true ->
  (k < fuel)%nat ->
  wait_for_condition fuel w timeout interval error_message
  = Some (Ok tt, repeat interval k).
Proof.
  intros Hfalse Hearly Htrue Hfuel. unfold wait_for_condition.
  apply wait_loop_returns; assumption.
Qed.

Lemma wait_returns_when_condition_holds_witness :
  wait_for_condition 10 third_time_lucky 30%float 0.5%float "never became true"
  = Some (Ok tt, [ 0.5%float; 0.5%float ]).
Proof.
  refine (wait_returns_when_condition_holds
            third_time_lucky 30%float 0.5%float "never became true" 2 10
            _ _ eq_refl _).
  - intros [| [| i]] Hi; [reflexivity | reflexivity | lia].
  - intros [| [| i]] Hi; [reflexivity | reflexivity | lia].
  - lia.
Defined.

(** X9.  If the condition fails at its first [k + 1] calls and the deadline
    is first found passed after the last of them, [wait_for_condition] raises
    [TimeoutError] with the caller's message after sleeping exactly [k]
    times; the condition is not called again.  In particular the condition is
    always called once before the deadline is looked at. *)
Theorem wait_raises_after_deadline (w : Waiting)
    (timeout interval : float) (error_message : string) (k fuel : nat) :
  (forall i, (i <= k)%nat -> condition w i = Ok false) ->
  (forall i, (i < k)%nat -> timed_out w timeout i = false) ->
  timed_out w timeout k = true ->
  (k < fuel)%nat ->
  wait_for_condition fuel w timeout interval error_message
  = Some (Raise ("TimeoutError: " ++ error_message)%string, repeat interval k).
Proof.
  intros Hfalse Hearly Hlate Hfuel. unfold wait_for_condition.
  apply wait_loop_times_out; assumption.
Qed.

Lemma wait_raises_after_deadline_witness :
  wait_for_condition 10 never_true 1%float 0.5%float "widget did not load"
  = Some (Raise "TimeoutError: widget did not load", [ 0.5%float ]).
Proof.
  refine (wait_raises_after_deadline
            never_true 1%float 0.5%float "widget did not load" 1 10
            _ _ eq_refl _).
  - intros i Hi. reflexivity.
  - intros [| i] Hi; [reflexivity | lia].
  - lia.
Defined.

End Waiting.

(* ------------------------------------------------------------------------- *)
(** ** src/utils/logger.py *)

Section LoggerProperties.

Import Logger Observe2.

Lemma get_logger_keeps (name : option string) (m : Manager) (n : string) :
  handlers (m n) <> [] -> snd (get_logger name m) n = m n.
Proof.
  intros Hn. unfold get_logger.
  destruct (handlers (m (logger_name name))) as [| h hs] eqn:Hh; simpl.
  - unfold store. destruct (String.eqb n (logger_name name)) eqn:E.
    + apply String.eqb_eq in E. subst n. congruence.
    + reflexivity.
  - reflexivity.
Qed.

(** X10.  However many times and under whatever names [get_logger] is
    called in a process where no logger was configured, no logger ever has
    more than one handler, and every logger that was asked for has exactly
    the one colored console handler, at level INFO: repeated calls do not
    duplicate output. *)
Theorem get_logger_installs_one_handler (names : list (option string)) :
  (forall n,
      (List.length (handlers (after_get_logger names unconfigured n)) <= 1)%nat)
  /\ (forall name,
         In name names ->
         after_get_logger names unconfigured (logger_name name)
         = {| handlers := [colored_console]; level := INFO |}).
Proof.
  assert (Hgen : forall names' m,
             (forall n, m n = {| handlers := []; level := NOTSET |}
                        \/ m n = {| handlers := [colored_console]; level := INFO |}) ->
             (forall n, after_get_logger names' m n
                        = {| handlers := []; level := NOTSET |}
                        \/ after_get_logger names' m n
                           = {| handlers := [colored_console]; level := INFO |})
             /\ (forall name,
                    In name names' \/ m (logger_name name)
                                      = {| handlers := [colored_console];
                                           level := INFO |} ->
                    after_get_logger names' m (logger_name name)
                    = {| handlers := [colored_console]; level := INFO |})).
  { induction names' as [| name0 rest IH]; intros m Hm.
    - split; [exact Hm |]. intros name [[] | H]; exact H.
    - assert (Hm' : forall n,
                 snd (get_logger name0 m) n = {| handlers := []; level := NOTSET |}
                 \/ snd (get_logger name0 m) n
                    = {| handlers := [colored_console]; level := INFO |}).
      { intros n. unfold get_logger.
        destruct (Hm (logger_name name0)) as [H0 | H0]; rewrite H0; simpl.
        - unfold store. destruct (String.eqb n (logger_name name0));
            [right; reflexivity | apply Hm].
        - apply Hm. }
      destruct (IH _ Hm') as [IH1 IH2].
      split; [exact IH1 |].
      intros name Hname. apply IH2.
      destruct Hname as [[Heq | Hin] | Hdone].
      + right. subst name0. unfold get_logger.
        destruct (Hm (logger_name name)) as [H0 | H0]; rewrite H0; simpl.
        * unfold store. now rewrite String.eqb_refl.
        * exact H0.
      + left. exact Hin.
      + right. rewrite get_logger_keeps; [exact Hdone |].
        rewrite Hdone. discriminate. }
  destruct (Hgen names unconfigured (fun n => or_introl eq_refl)) as [H1 H2].
  split.
  - intros n. destruct (H1 n) as [H | H]; rewrite H; simpl; lia.
  - intros name Hin. apply H2. now left.
Qed.

(** X11.  A logger that already has a handler is returned as it is: no
    handler is added, its level is not changed to INFO, and the manager is
    left as it was. *)
Theorem get_logger_keeps_configured_logger (name : option string) (m : Manager) :
  handlers (m (logger_name name)) <> [] ->
  get_logger name m = (logger_name name, m).
Proof.
  intros Hconfigured. unfold get_logger.
  destruct (handlers (m (logger_name name))) as [| h hs]; [congruence | reflexivity].
Qed.

Lemma get_logger_keeps_configured_logger_witness :
  get_logger (Some "WeatherPage") preconfigured = ("WeatherPage", preconfigured)
  /\ level (preconfigured "WeatherPage") = 10%Z.
Proof.
  split; [| reflexivity].
  apply (get_logger_keeps_configured_logger (Some "WeatherPage") preconfigured).
  simpl. discriminate.
Defined.

End LoggerProperties.

(* ------------------------------------------------------------------------- *)
(** ** More about the page objects *)

Section PageProperties.

Import BasePage WeatherPage PageActions Observe Observe2.

(** X12.  For a selector string or a locator object whose element is
    obtained, [wait_for_element] passes the caller's timeout to [wait_for]
    only when it is a non-zero number; with no timeout, and also with an
    explicit timeout of 0, it waits for [settings.browser_timeout] instead.
    When [page.locator] raises on a selector string, that exception is raised
    and [wait_for] is not reached. *)
Theorem wait_for_element_timeout (self : t)
    (wait_for : Locator -> string -> Z -> outcome unit)
    (locator : string + Locator) (element : Locator) :
  resolves self locator element ->
  result (wait_for_element self wait_for locator None)
  = wait_for element "visible" (Config.browser_timeout (settings self))
  /\ result (wait_for_element self wait_for locator (Some 0%Z))
     = wait_for element "visible" (Config.browser_timeout (settings self))
  /\ (forall n : Z,
         n <> 0%Z ->
         result (wait_for_element self wait_for locator (Some n))
         = wait_for element "visible" n)
  /\ (forall selector e timeout,
         Browser.locator (page self) selector = Raise e ->
         result (wait_for_element self wait_for (inl selector) timeout) = Raise e).
Proof.
  intros Hresolves.
  assert (Hwait : forall timeout,
             result (wait_for_element self wait_for locator timeout)
             = wait_for element "visible"
                 match timeout with
                 | Some n => if Z.eqb n 0
                             then Config.browser_timeout (settings self)
                             else n
                 | None => Config.browser_timeout (settings self)
                 end).
  { intros timeout. unfold wait_for_element, result, bind, element_of, call, ret.
    destruct locator as [selector | l]; simpl in Hresolves.
    - rewrite Hresolves. simpl.
      destruct (wait_for element "visible" _); reflexivity.
    - subst l. simpl. destruct (wait_for element "visible" _); reflexivity. }
  split; [apply (Hwait None) | split; [apply (Hwait (Some 0%Z)) | split]].
  - intros n Hn. rewrite (Hwait (Some n)).
    apply Z.eqb_neq in Hn. now rewrite Hn.
  - intros selector e timeout He.
    unfold wait_for_element, result, bind, element_of, call.
    rewrite He. reflexivity.
Qed.

(** With a [wait_for] that only the 30000 ms default satisfies, an explicit
    timeout of 0 succeeds on a selector string. *)
Lemma wait_for_element_timeout_witness :
  result (wait_for_element on_blank_page patient_wait (inl ".weather") (Some 0%Z))
  = Ok tt.
Proof.
  exact (proj1 (proj2 (wait_for_element_timeout
                         on_blank_page patient_wait (inl ".weather")
                         (Loc ".weather") eq_refl))).
Defined.

(** X13.  None of the six read-only methods of [WeatherPage] ever raises,
    whatever the page does: each returns a value. *)
Theorem page_queries_never_raise (self : t) :
  (exists v, result (get_temperature self) = Ok v)
  /\ (exists v, result (get_city_name self) = Ok v)
  /\ (exists v, result (get_weather_description self) = Ok v)
  /\ (exists b, result (is_weather_info_displayed self) = Ok b)
  /\ (exists b, result (is_error_displayed self) = Ok b)
  /\ (exists v, result (get_error_message self) = Ok v).
Proof.
  repeat split;
    try apply first_visible_text_never_raises;
    try apply any_visible_never_raises.
  unfold get_error_message, is_error_displayed.
  destruct (any_visible_never_raises self 5000 error_selectors) as [b Hb].
  destruct (first_visible_text_never_raises self 5000 error_selectors) as [v Hv].
  unfold result in *.
  destruct (any_visible self 5000 error_selectors) as [r tr]. simpl in Hb. subst r.
  destruct (first_visible_text self 5000 error_selectors) as [r' tr'].
  simpl in Hv. subst r'.
  destruct b; [exists v | exists None]; reflexivity.
Qed.

Lemma waited_app (t1 t2 : list Event) :
  waited (t1 ++ t2) = (waited t1 + waited t2)%Z.
Proof.
  unfold waited. rewrite timeouts_app.
  induction (timeouts t1) as [| x xs IH]; simpl; [reflexivity | lia].
Qed.

Lemma waited_bind {A B} (m : M A) (k : A -> M B) (a b : Z) :
  (waited (trace m) <= a)%Z ->
  (forall x, (waited (trace (k x)) <= b)%Z) ->
  (0 <= b)%Z ->
  (waited (trace (bind m k)) <= a + b)%Z.
Proof.
  intros Hm Hk Hb. destruct m as [[x | e] tr]; simpl in *.
  - specialize (Hk x). destruct (k x) as [r tr']. simpl in *.
    rewrite waited_app. lia.
  - lia.
Qed.

Lemma waited_after_calls {A} (evs : list Event) (m : M A) :
  waited (trace (after_calls evs m)) = (waited evs + waited (trace m))%Z.
Proof. unfold after_calls, trace. simpl. apply waited_app. Qed.

Lemma waited_probe (selector : string) (l : Locator) (timeout : Z) :
  waited [CallLocator selector; CallIsVisible l timeout] = timeout.
Proof. unfold waited. simpl. lia. Qed.

Lemma waited_read (selector : string) (l : Locator) (timeout : Z) :
  waited [CallLocator selector; CallIsVisible l timeout; CallTextContent l]
  = timeout.
Proof. unfold waited. simpl. lia. Qed.

Lemma waited_locate (selector : string) : waited [CallLocator selector] = 0%Z.
Proof. reflexivity. Qed.

Lemma waited_any_visible (self : t) (timeout : Z) (selectors : list string) :
  (0 <= timeout)%Z ->
  (waited (trace (any_visible self timeout selectors))
   <= timeout * Z.of_nat (List.length selectors))%Z.
Proof.
  intros Hpos. induction selectors as [| s rest IH].
  - change (0 <= timeout * 0)%Z. lia.
  - rewrite any_visible_cons.
    change (List.length (s :: rest)) with (S (List.length rest)).
    rewrite Nat2Z.inj_succ.
    destruct (locator (page self) s) as [l | e].
    + destruct (is_visible (page self) (First l) timeout) as [[|] | e].
      * unfold trace. simpl snd. rewrite waited_probe. nia.
      * rewrite waited_after_calls, waited_probe. nia.
      * rewrite waited_after_calls, waited_probe. nia.
    + rewrite waited_after_calls, waited_locate. nia.
Qed.

Lemma waited_first_visible_text (self : t) (timeout : Z)
    (selectors : list string) :
  (0 <= timeout)%Z ->
  (waited (trace (first_visible_text self timeout selectors))
   <= timeout * Z.of_nat (List.length selectors))%Z.
Proof.
  intros Hpos. induction selectors as [| s rest IH].
  - change (0 <= timeout * 0)%Z. lia.
  - rewrite first_visible_text_cons.
    change (List.length (s :: rest)) with (S (List.length rest)).
    rewrite Nat2Z.inj_succ.
    destruct (locator (page self) s) as [l | e].
    + destruct (is_visible (page self) (First l) timeout) as [[|] | e].
      * destruct (text_content (page self) (First l)) as [content | e].
        -- unfold trace. simpl snd. rewrite waited_read. nia.
        -- rewrite waited_after_calls, waited_read. nia.
      * rewrite waited_after_calls, waited_probe. nia.
      * rewrite waited_after_calls, waited_probe. nia.
    + rewrite waited_after_calls, waited_locate. nia.
Qed.

Lemma waited_search_input_loop (self : t) (selectors : list string)
    (search_input : option Locator) :
  (waited (trace (search_input_loop self selectors search_input))
   <= 5000 * Z.of_nat (List.length selectors))%Z.
Proof.
  revert search_input.
  induction selectors as [| s rest IH]; intros search_input.
  - change (0 <= 5000 * 0)%Z. lia.
  - rewrite search_input_loop_cons.
    change (List.length (s :: rest)) with (S (List.length rest)).
    rewrite Nat2Z.inj_succ.
    destruct (locator (page self) s) as [l | e].
    + destruct (is_visible (page self) (First l) 5000) as [[|] | e].
      * unfold trace. simpl snd. rewrite waited_probe. nia.
      * rewrite waited_after_calls, waited_probe.
        specialize (IH (Some (First l))). nia.
      * rewrite waited_after_calls, waited_probe.
        specialize (IH (Some (First l))). nia.
    + rewrite waited_after_calls, waited_locate.
      specialize (IH search_input). nia.
Qed.

(** X14.  The visibility timeouts a method hands out add up to at most the
    per-candidate timeout times the number of its candidates: 20 s for
    [search_for_city], [get_temperature], [get_weather_description] and
    [is_error_displayed], 25 s for [get_city_name], 40 s for
    [is_weather_info_displayed], and 40 s for [get_error_message], which
    runs through its candidates twice. *)
Theorem visibility_budget (self : t) (city_name : string) :
  (waited (trace (search_for_city self city_name)) <= 20000)%Z
  /\ (waited (trace (get_temperature self)) <= 20000)%Z
  /\ (waited (trace (get_city_name self)) <= 25000)%Z
  /\ (waited (trace (get_weather_description self)) <= 20000)%Z
  /\ (waited (trace (is_weather_info_displayed self)) <= 40000)%Z
  /\ (waited (trace (is_error_displayed self)) <= 20000)%Z
  /\ (waited (trace (get_error_message self)) <= 40000)%Z.
Proof.
  repeat split.
  - unfold search_for_city.
    change 20000%Z with (20000 + 0)%Z.
    apply waited_bind;
      [apply (waited_search_input_loop self search_selectors) | | lia].
    intros [element |]; unfold bind, call, navigate_to, wait_for_page_load; simpl.
    + destruct (fill (page self) element city_name) as [[] | e]; simpl;
        [destruct (press (page self) element "Enter") as [[] | e]; simpl |];
        unfold waited; simpl; lia.
    + destruct (goto (page self) _) as [[] | e]; simpl; unfold waited; simpl; lia.
  - apply (waited_first_visible_text self 5000 temperature_selectors). lia.
  - apply (waited_first_visible_text self 5000 city_selectors). lia.
  - apply (waited_first_visible_text self 5000 description_selectors). lia.
  - apply (waited_any_visible self 10000 weather_selectors). lia.
  - apply (waited_any_visible self 5000 error_selectors). lia.
  - unfold get_error_message.
    change 40000%Z with (20000 + 20000)%Z.
    apply waited_bind; [apply (waited_any_visible self 5000 error_selectors); lia | | lia].
    intros [|].
    + apply (waited_first_visible_text self 5000 error_selectors). lia.
    + simpl. unfold waited. simpl. lia.
Qed.

End PageProperties.

(* ------------------------------------------------------------------------- *)
(** ** search_for_city and navigation *)

Section SearchProperties.

Import BasePage WeatherPage PageActions Observe Observe2.

Lemma search_input_loop_unlocated (self : t) (selectors : list string)
    (search_input : option Locator) :
  (forall s, In s selectors -> is_ok (locator (page self) s) = false) ->
  search_input_loop self selectors search_input
  = (Ok search_input, map CallLocator selectors).
Proof.
  revert search_input.
  induction selectors as [| s rest IH]; intros search_input Hraise.
  - reflexivity.
  - rewrite search_input_loop_cons.
    pose proof (Hraise s (or_introl eq_refl)) as Hs.
    destruct (locator (page self) s) as [l | e]; [discriminate |].
    rewrite IH; [reflexivity |].
    intros s' Hin. apply Hraise. now right.
Qed.

(** X15.  When building the locator raises for every search-input candidate,
    [search_for_city] makes no visibility check and fills nothing: after the
    four locator calls it navigates once to [{ui_base_url}/find?q={city_name}],
    the city name being inserted as it is, and waits for the load state if
    the navigation did not raise. *)
Theorem search_for_city_url_fallback (self : t) (city_name : string) :
  (forall s, In s search_selectors -> is_ok (locator (page self) s) = false) ->
  let search_url :=
    (Config.ui_base_url (settings self) ++ "/find?q=" ++ city_name)%string in
  trace (search_for_city self city_name)
  = (map CallLocator search_selectors
       ++ CallGoto search_url
       :: (if is_ok (goto (page self) search_url)
           then [CallWaitForLoadState "networkidle"]
           else []))%list.
Proof.
  intros Hraise search_url. unfold search_for_city.
  rewrite (search_input_loop_unlocated self search_selectors None Hraise).
  unfold bind, navigate_to, wait_for_page_load, call, trace.
  fold search_url.
  destruct (goto (page self) search_url) as [[] | e]; reflexivity.
Qed.

Lemma search_for_city_url_fallback_witness :
  trace (search_for_city on_closed_page "New York")
  = [ CallLocator SEARCH_INPUT;
      CallLocator "input[name='q']";
      CallLocator "input[id*='search']";
      CallLocator "input[placeholder*='Search']";
      CallGoto "https://openweathermap.org/find?q=New York";
      CallWaitForLoadState "networkidle" ].
Proof.
  apply (search_for_city_url_fallback on_closed_page "New York").
  intros s Hin. reflexivity.
Defined.

Lemma search_input_loop_never_raises (self : t) (selectors : list string)
    (search_input : option Locator) :
  exists found, result (search_input_loop self selectors search_input) = Ok found.
Proof.
  revert search_input.
  induction selectors as [| s rest IH]; intros search_input.
  - exists search_input. reflexivity.
  - rewrite search_input_loop_cons.
    destruct (locator (page self) s) as [l | e].
    + destruct (is_visible (page self) (First l) 5000) as [[|] | e];
        [exists (Some (First l)); reflexivity | |];
        destruct (IH (Some (First l))) as [found Hfound];
        exists found; exact Hfound.
    + destruct (IH search_input) as [found Hfound].
      exists found; exact Hfound.
Qed.

(** X16.  [search_for_city] propagates only what [fill], [press], [goto] or
    [wait_for_load_state] raised; an exception raised while locating a
    candidate or checking its visibility never reaches the caller. *)
Theorem search_for_city_raises_only_action_errors (self : t)
    (city_name : string) (e : exn) :
  result (search_for_city self city_name) = Raise e ->
  (exists element,
      fill (page self) element city_name = Raise e
      \/ press (page self) element "Enter" = Raise e)
  \/ goto (page self)
          (Config.ui_base_url (settings self) ++ "/find?q=" ++ city_name)%string
     = Raise e
  \/ wait_for_load_state (page self) "networkidle" = Raise e.
Proof.
  unfold search_for_city.
  destruct (search_input_loop_never_raises self search_selectors None)
    as [found Hfound].
  unfold result in *.
  destruct (search_input_loop self search_selectors None) as [r tr].
  simpl in Hfound. subst r.
  unfold bind, navigate_to, wait_for_page_load, call. simpl.
  destruct found as [element |].
  - destruct (fill (page self) element city_name) as [[] | e1] eqn:Hfill; simpl.
    + destruct (press (page self) element "Enter") as [[] | e2] eqn:Hpress; simpl.
      * intros H. right. right. exact H.
      * intros H. injection H as H. subst e2. left. exists element. now right.
    + intros H. injection H as H. subst e1. left. exists element. now left.
  - destruct (goto (page self) _) as [[] | e1] eqn:Hgoto; simpl.
    + intros H. right. right. exact H.
    + intros H. injection H as H. subst e1. right. left. reflexivity.
Qed.

Lemma search_for_city_raises_only_action_errors_witness :
  (exists element,
      fill (page on_readonly_page) element "London"
      = Raise "Error: Element is not editable"
      \/ press (page on_readonly_page) element "Enter"
         = Raise "Error: Element is not editable")
  \/ goto (page on_readonly_page)
          (Config.ui_base_url (settings on_readonly_page) ++ "/find?q=" ++ "London")%string
     = Raise "Error: Element is not editable"
  \/ wait_for_load_state (page on_readonly_page) "networkidle"
     = Raise "Error: Element is not editable".
Proof.
  exact (search_for_city_raises_only_action_errors
           on_readonly_page "London" "Error: Element is not editable" eq_refl).
Defined.

(** X17.  When [search_for_city] or [navigate_to_weather_page] returns
    normally, the last thing it did was to wait for the network-idle load
    state. *)
Theorem returns_after_network_idle (self : t) (city_name : string) :
  (result (search_for_city self city_name) = Ok tt ->
   exists before,
     trace (search_for_city self city_name)
     = (before ++ [CallWaitForLoadState "networkidle"])%list)
  /\ (result (navigate_to_weather_page self) = Ok tt ->
      exists before,
        trace (navigate_to_weather_page self)
        = (before ++ [CallWaitForLoadState "networkidle"])%list).
Proof.
  split.
  - unfold search_for_city, result, trace.
    destruct (search_input_loop self search_selectors None) as [[found | e] tr];
      [| discriminate].
    unfold bind, navigate_to, wait_for_page_load, call. simpl.
    destruct found as [element |].
    + destruct (fill (page self) element city_name) as [[] | e1]; simpl;
        [| discriminate].
      destruct (press (page self) element "Enter") as [[] | e2]; simpl;
        [| discriminate].
      intros _.
      exists (tr ++ [CallFill element city_name; CallPress element "Enter"])%list.
      now rewrite <- app_assoc.
    + destruct (goto (page self) _) as [[] | e1] eqn:Hgoto; simpl; [| discriminate].
      intros _. eexists (tr ++ [CallGoto _])%list.
      now rewrite <- app_assoc.
  - unfold navigate_to_weather_page, navigate_to, wait_for_page_load, bind, call,
      result, trace. simpl.
    destruct (goto (page self) _) as [[] | e1]; simpl; [| discriminate].
    intros _. eexists [CallGoto _]. reflexivity.
Qed.

Lemma returns_after_network_idle_witness :
  (exists before,
      trace (search_for_city on_blank_page "London")
      = (before ++ [CallWaitForLoadState "networkidle"])%list)
  /\ (exists before,
         trace (navigate_to_weather_page on_blank_page)
         = (before ++ [CallWaitForLoadState "networkidle"])%list).
Proof.
  exact (conj (proj1 (returns_after_network_idle on_blank_page "London") eq_refl)
              (proj2 (returns_after_network_idle on_blank_page "London") eq_refl)).
Defined.

(** X18.  [get_error_message] returns a text only if [is_error_displayed]
    is true on the same page; when it is false, [get_error_message] returns
    [None] without any further call on the page. *)
Theorem error_message_needs_displayed_error (self : t) :
  (result (is_error_displayed self) = Ok false ->
   get_error_message self = (Ok None, trace (is_error_displayed self)))
  /\ (forall message,
         result (get_error_message self) = Ok (Some message) ->
         result (is_error_displayed self) = Ok true).
Proof.
  unfold get_error_message, result, trace.
  destruct (is_error_displayed self) as [[[|] | e] tr] eqn:Hdisplayed; simpl.
  - split; [discriminate | reflexivity].
  - split; [intros _; now rewrite app_nil_r | discriminate].
  - split; discriminate.
Qed.

Lemma error_message_needs_displayed_error_witness :
  get_error_message on_blank_page
  = (Ok None, trace (is_error_displayed on_blank_page))
  /\ result (is_error_displayed on_error_page) = Ok true.
Proof.
  exact (conj (proj1 (error_message_needs_displayed_error on_blank_page) eq_refl)
              (proj2 (error_message_needs_displayed_error on_error_page)
                     "city not found" eq_refl)).
Defined.

End SearchProperties.

(* ------------------------------------------------------------------------- *)
(** ** More about the settings *)

Section SettingsProperties.

Import Config Tests Observe Observe2.

Lemma get_settings_settled (env : Environ) (p : Process) :
  settled p ->
  settled (snd (get_settings env p))
  /\ (fst (get_settings env p) = Ok 0%nat
      \/ exists e, fst (get_settings env p) = Raise e).
Proof.
  intros [[Hnone Hheap] | [Hsome Hlen]]; unfold get_settings.
  - rewrite Hnone. destruct (Settings_new env) as [s | e]; simpl.
    + rewrite Hheap. simpl. split; [right; split; reflexivity | left; reflexivity].
    + split; [left; split; assumption | right; exists e; reflexivity].
  - rewrite Hsome. simpl. split; [right; split; assumption | left; reflexivity].
Qed.

(** X19.  Over any sequence of [get_settings] calls, under environments that
    may change between calls and may make the constructor fail, at most one
    [Settings] object is ever constructed and every call that returns
    returns that same object. *)
Theorem get_settings_constructs_at_most_once (envs : list Environ) :
  (List.length (heap (snd (get_settings_calls envs fresh))) <= 1)%nat
  /\ Forall (fun r => r = Ok 0%nat \/ exists e, r = Raise e)
            (fst (get_settings_calls envs fresh)).
Proof.
  assert (Hgen : forall p, settled p ->
             settled (snd (get_settings_calls envs p))
             /\ Forall (fun r => r = Ok 0%nat \/ exists e, r = Raise e)
                       (fst (get_settings_calls envs p))).
  { induction envs as [| env rest IH]; intros p Hp; simpl.
    - split; [exact Hp | constructor].
    - destruct (get_settings_settled env p Hp) as [Hp1 Hr].
      destruct (get_settings env p) as [r p1]. simpl in Hp1, Hr.
      destruct (IH p1 Hp1) as [Hp2 Hrs].
      destruct (get_settings_calls rest p1) as [rs p2]. simpl in *.
      split; [exact Hp2 | constructor; assumption]. }
  destruct (Hgen fresh (or_introl (conj eq_refl eq_refl))) as [Hsettled Hall].
  split; [| exact Hall].
  destruct Hsettled as [[_ Hheap] | [_ Hlen]]; [rewrite Hheap; simpl |]; lia.
Qed.

Lemma other_errors_none (env : Environ) :
  other_errors env = [] <-> env_unparsable env = [] /\ env_dotenv_extra env = [].
Proof.
  unfold other_errors. split.
  - intros H. apply app_eq_nil in H. destruct H as [H1 H2].
    apply map_eq_nil in H1. apply map_eq_nil in H2. split; assumption.
  - intros [H1 H2]. rewrite H1, H2. reflexivity.
Qed.

(** When the constructor succeeds, and what it builds. *)
Lemma Settings_new_succeeds (env : Environ) (s : Settings) :
  Settings_new env = Ok s
  <-> exists key,
        env_openweather_api_key env = Some key
        /\ env_unparsable env = []
        /\ env_dotenv_extra env = []
        /\ s = populate env key.
Proof.
  unfold Settings_new. split.
  - destruct (env_openweather_api_key env) as [key |];
      destruct (other_errors env) as [| err errs] eqn:Herr; try discriminate.
    intros H. injection H as H. apply other_errors_none in Herr.
    destruct Herr as [H1 H2]. exists key. repeat split; auto.
  - intros [key [Hkey [H1 [H2 Hs]]]]. rewrite Hkey.
    rewrite (proj2 (other_errors_none env) (conj H1 H2)). now subst s.
Qed.

(** X20.  A failed construction is not remembered: if the first call raises
    because [Settings()] fails validation and the next call finds an
    environment under which [Settings()] succeeds, that next call constructs
    the object, which carries the key of the environment seen then, and
    returns it. *)
Theorem get_settings_retries_after_failure (before after_ : Environ)
    (e : exn) (s : Settings) :
  Settings_new before = Raise e ->
  Settings_new after_ = Ok s ->
  get_settings_calls [ before; after_ ] fresh
  = ([ Raise e; Ok 0%nat ], {| heap := [s]; _settings := Some 0%nat |})
  /\ env_openweather_api_key after_ = Some (openweather_api_key s).
Proof.
  intros Hbefore Hafter. split.
  - simpl. unfold get_settings. simpl. rewrite Hbefore. simpl.
    rewrite Hafter. reflexivity.
  - apply Settings_new_succeeds in Hafter.
    destruct Hafter as [key [Hkey [_ [_ Hs]]]]. subst s. exact Hkey.
Qed.

(** The first call fails on a [DEBUG] that is no boolean, although the key
    is defined; the second, under a valid environment, builds the object. *)
Lemma get_settings_retries_after_failure_witness :
  fst (get_settings_calls
         [ environ_with_bad_debug "0123456789abcdef";
           environ_with_key "0123456789abcdef" ] fresh)
  = [ Raise "ValidationError: debug: Input should be a valid value"; Ok 0%nat ]
  /\ option_map openweather_api_key
       (deref (snd (get_settings_calls
                      [ environ_with_bad_debug "0123456789abcdef";
                        environ_with_key "0123456789abcdef" ] fresh)) 0)
     = Some "0123456789abcdef".
Proof.
  rewrite (proj1 (get_settings_retries_after_failure
                    (environ_with_bad_debug "0123456789abcdef")
                    (environ_with_key "0123456789abcdef")
                    "ValidationError: debug: Input should be a valid value"
                    (populate (environ_with_key "0123456789abcdef")
                              "0123456789abcdef")
                    eq_refl eq_refl)).
  split; reflexivity.
Defined.

(** X21.  In a fresh process a test of [TestWeatherAPIWorking] ends in a
    validation error exactly when the key is not defined, some value does not
    validate or [.env] holds a foreign entry; it is skipped exactly when the
    environment validates and the key is the empty string; otherwise it goes
    on to its request with settings that carry the key. *)
Theorem api_key_prelude_outcomes (env : Environ) :
  ((exists e, fst (api_key_prelude env fresh) = Errored e)
   <-> env_openweather_api_key env = None
       \/ env_unparsable env <> []
       \/ env_dotenv_extra env <> [])
  /\ (fst (api_key_prelude env fresh) = Skipped "OpenWeatherMap API key not provided"
      <-> env_openweather_api_key env = Some ""
          /\ env_unparsable env = []
          /\ env_dotenv_extra env = [])
  /\ (forall key,
         env_openweather_api_key env = Some key ->
         key <> "" ->
         env_unparsable env = [] ->
         env_dotenv_extra env = [] ->
         exists settings,
           fst (api_key_prelude env fresh) = Requests settings
           /\ openweather_api_key settings = key).
Proof.
  assert (Hok : forall key,
             env_openweather_api_key env = Some key ->
             env_unparsable env = [] ->
             env_dotenv_extra env = [] ->
             fst (api_key_prelude env fresh)
             = if negb (truthy_str key)
               then Skipped "OpenWeatherMap API key not provided"
               else Requests (populate env key)).
  { intros key Hkey H1 H2.
    assert (Hnew : Settings_new env = Ok (populate env key))
      by (apply Settings_new_succeeds; exists key; repeat split; assumption).
    unfold api_key_prelude, get_settings. simpl. rewrite Hnew. simpl.
    destruct (negb (truthy_str key)); reflexivity. }
  assert (Hraise : forall e,
             Settings_new env = Raise e ->
             fst (api_key_prelude env fresh) = Errored e).
  { intros e He. unfold api_key_prelude, get_settings. simpl. now rewrite He. }
  assert (Hcases : (exists e, Settings_new env = Raise e)
                   \/ exists key,
                        env_openweather_api_key env = Some key
                        /\ env_unparsable env = []
                        /\ env_dotenv_extra env = []).
  { destruct (Settings_new env) as [s | e] eqn:Hnew.
    - right. apply Settings_new_succeeds in Hnew.
      destruct Hnew as [key [Hkey [H1 [H2 _]]]]. exists key. auto.
    - left. exists e. reflexivity. }
  assert (Hfail : (exists e, Settings_new env = Raise e)
                  <-> env_openweather_api_key env = None
                      \/ env_unparsable env <> []
                      \/ env_dotenv_extra env <> []).
  { split.
    - intros [e He].
      destruct (env_openweather_api_key env) as [key |] eqn:Hkey; [| now left].
      right.
      destruct (env_unparsable env) as [| u us] eqn:Hu; [| left; discriminate].
      destruct (env_dotenv_extra env) as [| x xs] eqn:Hx; [| right; discriminate].
      exfalso.
      assert (Hnew : Settings_new env = Ok (populate env key))
        by (apply Settings_new_succeeds; exists key; repeat split; assumption).
      congruence.
    - intros H. destruct (Settings_new env) as [s | e] eqn:Hnew;
        [| exists e; reflexivity].
      exfalso. apply Settings_new_succeeds in Hnew.
      destruct Hnew as [key [Hkey [H1 [H2 _]]]].
      destruct H as [H | [H | H]]; congruence. }
  split; [| split].
  - rewrite <- Hfail. split.
    + intros [e He]. destruct Hcases as [[e' He'] | [key [Hkey [H1 H2]]]].
      * exists e'. exact He'.
      * rewrite (Hok key Hkey H1 H2) in He.
        destruct (negb (truthy_str key)); discriminate He.
    + intros [e He]. exists e. now apply Hraise.
  - split.
    + intros Hskip. destruct Hcases as [[e He] | [key [Hkey [H1 H2]]]].
      * rewrite (Hraise e He) in Hskip. discriminate Hskip.
      * rewrite (Hok key Hkey H1 H2) in Hskip.
        destruct key as [| c rest]; [auto | discriminate Hskip].
    + intros [Hkey [H1 H2]]. now rewrite (Hok "" Hkey H1 H2).
  - intros key Hkey Hne H1 H2. exists (populate env key).
    rewrite (Hok key Hkey H1 H2).
    destruct key as [| c rest]; [congruence | split; reflexivity].
Qed.

End SettingsProperties.
